(** * OpenPGP card data decoding: a shallow embedding of [piv/gpg_data.go]

    The Go code reads tagged values out of a [map[string][]byte] and decodes
    them with fixed byte offsets.  Its methods hang off a pointer receiver
    [g *GpgData] that may be [nil], return [(value, error)] pairs, and can
    stop with a runtime panic on an index or slice expression.  The model
    keeps all three: the receiver is an [option GpgData] threaded through a
    state monad, results are pairs with an [option error], and a panic is an
    outcome of its own. *)

From Stdlib Require Import ZArith NArith List Strings.String Strings.Ascii.
From Stdlib Require Import Strings.Byte Lia Bool DecimalString.
From stdpp Require Import gmap strings.
Import ListNotations.
Local Open Scope Z_scope.

(** ** Go runtime: panics, machine integers, byte slices, errors *)

Inductive panic : Type :=
| IndexOutOfRange
| SliceBoundsOutOfRange
| NilDereference.

(** What a call can do: return its results, or panic. *)
Inductive outcome (A : Type) : Type :=
| Returns (v : A)
| Panics (p : panic).

Arguments Returns {A} v.
Arguments Panics {A} p.

Definition obind {A B : Type} (o : outcome A) (k : A -> outcome B) : outcome B :=
  match o with
  | Returns v => k v
  | Panics p => Panics p
  end.

Notation "x <~ c ; k" := (obind c (fun x => k))
  (at level 20, c at level 100, k at level 200, only parsing).

(** Go's [int] on the 64-bit targets the package builds for: two's
    complement, arithmetic wraps silently. *)
Module Int.
Definition min : Z := - 2 ^ 63.
Definition max : Z := 2 ^ 63 - 1.
Definition wrap (z : Z) : Z := (z + 2 ^ 63) mod 2 ^ 64 - 2 ^ 63.
Definition add (a b : Z) : Z := wrap (a + b).
Definition sub (a b : Z) : Z := wrap (a - b).
Definition mul (a b : Z) : Z := wrap (a * b).
Definition inrange (z : Z) : Prop := min <= z <= max.
End Int.

(** [uint16] arithmetic wraps modulo 2^16. *)
Definition wrap16 (z : Z) : Z := z mod 2 ^ 16.

(** The numeric value of a byte.  [Byte.to_N] is a 256-way match, so it is
    kept folded during simplification. *)
Definition u8 (b : byte) : Z := Z.of_N (Byte.to_N b).
Arguments u8 : simpl never.

(** A [[]byte].  [None] is the nil slice, [Some l] a slice over [l].  Every
    slice is taken with its capacity equal to its length: each slice
    expression of the file has its upper bound compared with [len] before it
    runs, or (in [update]) follows an index expression that already needs
    that length. *)
Definition bytes : Type := option (list byte).

Definition elems (b : bytes) : list byte :=
  match b with
  | Some l => l
  | None => []
  end.

Definition len (b : bytes) : Z := Z.of_nat (length (elems b)).

Definition is_nil (b : bytes) : bool :=
  match b with
  | None => true
  | Some _ => false
  end.

(** [b[i]]: panics unless [0 <= i < len(b)]. *)
Definition index (b : bytes) (i : Z) : outcome byte :=
  if i <? 0 then Panics IndexOutOfRange
  else match nth_error (elems b) (Z.to_nat i) with
       | Some x => Returns x
       | None => Panics IndexOutOfRange
       end.

(** [b[lo:hi]]: panics unless [0 <= lo <= hi <= len(b)]; a nil slice stays
    nil. *)
Definition slice (b : bytes) (lo hi : Z) : outcome bytes :=
  if (lo <? 0) || (hi <? lo) || (len b <? hi) then Panics SliceBoundsOutOfRange
  else Returns (match b with
                | None => None
                | Some l => Some (firstn (Z.to_nat (hi - lo)) (skipn (Z.to_nat lo) l))
                end).

(** The package's sentinel errors, and [fmt.Errorf] with one [%w] verb.  An
    [Errorf] keeps the format string of the call and the error it wraps; the
    other arguments of the call only fill in the message. *)
Inductive sentinel : Type :=
| ErrKeyNotPresent
| ErrNoSuchTag
| ErrNoSuchAlgorithm
| ErrUnknownKeyOrigin
| ErrNotFound
| ErrTooShort.

Inductive error : Type :=
| Sentinel (s : sentinel)
| Errorf (format : string) (wrapped : error).

Coercion Sentinel : sentinel >-> error.

#[global] Instance sentinel_eq_dec : EqDecision sentinel.
Proof. solve_decision. Defined.

(** [errors.Is(err, target)] for a sentinel target: walk the [%w] chain. *)
Fixpoint errors_Is (err : error) (target : sentinel) : bool :=
  match err with
  | Sentinel s => bool_decide (s = target)
  | Errorf _ e => errors_Is e target
  end.

(** ** The 1-based byte accessors *)

(** [getBytesWith1BasedIndexing(b, start, end)]. *)
Definition getBytesWith1BasedIndexing (b : bytes) (start end_ : Z)
  : outcome (bytes * option error) :=
  if is_nil b || (len b <? start) || (len b <? end_)
  then Returns (None, Some (Sentinel ErrNotFound))
  else r <~ slice b (Int.sub start 1) end_ ; Returns (r, None).

(** [getByteWith1BasedIndexing(b, index)]. *)
Definition getByteWith1BasedIndexing (b : bytes) (i : Z)
  : outcome (byte * option error) :=
  if is_nil b || (len b <? i)
  then Returns (x00, Some (Sentinel ErrNotFound))
  else v <~ index b (Int.sub i 1) ; Returns (v, None).

(** ** Formatting and string helpers from Go's standard library *)

(** One uppercase hexadecimal digit. *)
Definition hexdigit (d : Z) : ascii :=
  match String.get (Z.to_nat d) "0123456789ABCDEF" with
  | Some c => c
  | None => "0"%char
  end.

(** [%X] applied to a byte: no leading zero. *)
Definition fmtX (b : byte) : string :=
  let v := u8 b in
  if v <? 16 then String (hexdigit v) EmptyString
  else String (hexdigit (v / 16)) (String (hexdigit (v mod 16)) EmptyString).

(** [%02X] applied to a byte: always two digits. *)
Definition fmt02X (b : byte) : string :=
  let v := u8 b in
  String (hexdigit (v / 16)) (String (hexdigit (v mod 16)) EmptyString).

(** [%d] applied to a non-negative integer. *)
Definition fmtd (n : Z) : string := NilZero.string_of_uint (N.to_uint (Z.to_N n)).

Fixpoint spaces (n : nat) : string :=
  match n with
  | O => EmptyString
  | S k => String " "%char (spaces k)
  end.

(** [%-*d] with the width passed as an argument: left-justified, padded
    with spaces on the right. *)
Definition fmtd_left (width : Z) (n : Z) : string :=
  let s := fmtd n in
  s +:+ spaces (Z.to_nat width - String.length s).

(** The newline character of a Go ["\n"] literal. *)
Definition nl : string := String (ascii_of_nat 10) EmptyString.

(** [binary.BigEndian.Uint16] and [Uint32], with the bounds check their
    first statement makes. *)
Definition BigEndian_Uint16 (b : bytes) : outcome Z :=
  b1 <~ index b 1;
  b0 <~ index b 0;
  Returns (Z.lor (u8 b1) (Z.shiftl (u8 b0) 8)).

Definition BigEndian_Uint32 (b : bytes) : outcome Z :=
  b3 <~ index b 3;
  b2 <~ index b 2;
  b1 <~ index b 1;
  b0 <~ index b 0;
  Returns (Z.lor (Z.lor (Z.lor (u8 b3) (Z.shiftl (u8 b2) 8)) (Z.shiftl (u8 b1) 16))
             (Z.shiftl (u8 b0) 24)).

Fixpoint string_drop (n : nat) (s : string) : string :=
  match n, s with
  | S k, String _ s' => string_drop k s'
  | _, _ => s
  end.

Fixpoint string_take (n : nat) (s : string) : string :=
  match n, s with
  | S k, String c s' => String c (string_take k s')
  | _, _ => EmptyString
  end.

(** [s[lo:hi]] on a string: panics unless [0 <= lo <= hi <= len(s)]. *)
Definition str_slice (s : string) (lo hi : Z) : outcome string :=
  if (lo <? 0) || (hi <? lo) || (Z.of_nat (String.length s) <? hi)
  then Panics SliceBoundsOutOfRange
  else Returns (string_take (Z.to_nat (hi - lo)) (string_drop (Z.to_nat lo) s)).

(** [strings.Index(s, substr)]: byte offset of the first occurrence, or -1. *)
Fixpoint strings_Index_from (pos : Z) (s substr : string) : Z :=
  if String.prefix substr s then pos
  else match s with
       | EmptyString => -1
       | String _ s' => strings_Index_from (pos + 1) s' substr
       end.

Definition strings_Index (s substr : string) : Z := strings_Index_from 0 s substr.

(** [strings.ReplaceAll(s, old, new)] for a non-empty [old]: scan left to
    right, replace each match and resume after it.  [skip] counts the bytes
    of a match still to be passed over. *)
Fixpoint replace_scan (old new : string) (skip : nat) (s : string) : string :=
  match s with
  | EmptyString => EmptyString
  | String c s' =>
      match skip with
      | S k => replace_scan old new k s'
      | O => if String.prefix old s
             then new +:+ replace_scan old new (String.length old - 1) s'
             else String c (replace_scan old new 0 s')
      end
  end.

Definition strings_ReplaceAll (s old new : string) : string := replace_scan old new 0 s.

(** Modelled from the spec: [UpperCaseHexString] is defined in a file that
    is not among the sources.  Section 4.4 of the specification: the bytes
    "formatted as uppercase hex with no separators", two digits a byte. *)
Definition UpperCaseHexString (b : bytes) : string :=
  fold_right (fun x acc => fmt02X x +:+ acc) EmptyString (elems b).

(** ** Enumerations and constants declared outside [gpg_data.go] *)

(** Modelled from the spec: [KeyType] and its constants are declared in a
    file that is not among the sources.  Section 3 of the specification: a
    closed enumeration Signature, Decryption, Authentication, Attestation
    with ordinals 0, 1, 2, 3.  The Go type converts with [int(keyType)] and
    its [switch] has a [default] arm, so the model keeps it an integer. *)
Definition KeyType : Type := Z.
Definition SignatureKey : KeyType := 0.
Definition DecryptionKey : KeyType := 1.
Definition AuthenticationKey : KeyType := 2.
Definition AttestKey : KeyType := 3.

(** Modelled from the spec: the method [KeyType.Offset] is not among the
    sources.  Section 4.4 of the specification: [Origin] reads "one byte at
    the keyType's ordinal offset". *)
Definition Offset (keyType : KeyType) : Z := keyType.

(** [KeyOrigin] is an integer type: [Origin] builds a value of it with the
    conversion [KeyOrigin(keyValue)]. *)
Definition KeyOrigin : Type := Z.

(** [uint(x)] on 64-bit targets. *)
Definition uint (z : Z) : Z := z mod 2 ^ 64.

(** The tag paths.  Their constant block is not among the sources; the
    values are the ones the doc comments of [Algorithm], [Fingerprint],
    [Date], [Origin] and [loadExtendedData] quote (the first three follow
    the comment's pattern 6E.73.C(n+1)).  No statement below depends on their
    values. *)
Definition keyAlgorithmSignatureAttributesTag : string := "6E.73.C1".
Definition keyAlgorithmDecryptionAttributesTag : string := "6E.73.C2".
Definition keyAlgorithmAuthenticationAttributesTag : string := "6E.73.C3".
Definition keyInformationTag : string := "6E.73.C5".
Definition keyDateTag : string := "6E.73.CD".
Definition keyOriginAttributesTag : string := "6E.73.DE".
Definition extendedCapabilitiesTag : string := "6E.73.C0".

(** Widths of one entry of the packed fingerprint and date arrays, as in the
    doc comments of [Fingerprint] ([n*20:n*20+20]) and [Date] ([n*4:n*4+4]). *)
Definition keyFingerprintLen : Z := 20.
Definition keyDateLen : Z := 4.

(** Modelled from the spec: the capability masks of byte 1 are declared in a
    file that is not among the sources.  Section 4.3 of the specification
    numbers the bits most significant first, and [loadExtendedData] comments
    each use with its bit, from bit 8 (secure messaging) down to bit 1 (KDF).
    Some masks share their name with a field of [GpgData], hence the
    module. *)
Module Flag.
Definition SecureMessaging : Z := 128.
Definition GetChallenge : Z := 64.
Definition KeyImport : Z := 32.
Definition PWStatusChangeable : Z := 16.
Definition PrivateUseDOs : Z := 8.
Definition AlgorithmAttributesChangeable : Z := 4.
Definition PSODECENCwithAES : Z := 2.
Definition KDFSupported : Z := 1.
End Flag.

(** [time.Time]: the zero value, or what [time.Unix(sec, nsec)] builds. *)
Inductive Time : Type :=
| TimeZero
| TimeUnix (sec nsec : Z).

(** ** The card record and its receiver *)

(** Modelled from the spec: the declaration of the [GpgData] struct is not
    among the sources.  The fields are the ones the methods of
    [gpg_data.go] read and write, with the types section 3 of the
    specification gives them; [uint16] and [uint32] fields hold their value
    as a [Z]. *)
Record GpgData : Type := mkGpgData {
  Reader : string;
  Serial : string;
  SerialInt : Z;
  LongName : string;
  CardHolder : string;
  Rid : string;
  Application : string;
  Version : string;
  Manufacturer : string;
  AppletVersion : string;
  debug : bool;
  tlvValues : gmap string bytes;
  SecureMessagingSupported : bool;
  SecureMessaging : byte;
  GetChallengeSupported : bool;
  MaximumChallengeLength : Z;
  KeyImportSupported : bool;
  PWStatusChangeable : bool;
  PrivateUseDOsSupported : bool;
  AlgorithmAttributesChangeable : bool;
  SupportsPSODecryptionEncryptionWithAES : bool;
  KDFSupported : bool;
  PinBlock2Supported : bool;
  MSECommandSupported : bool;
  MaximumCardholderCertificatesLength : Z;
  MaximumSpecialDOsLength : Z
}.

(** Assignment to one field, [g.F = v]. *)
Definition set_Serial (v : string) (g : GpgData) : GpgData :=
  let '(mkGpgData rd _ si ln ch ri ap ve mf av db tv sms sm gcs mcl kis pws
    pud aac pso kdf pb2 mse mcc msd) := g in
  mkGpgData rd v si ln ch ri ap ve mf av db tv sms sm gcs mcl kis pws pud aac
    pso kdf pb2 mse mcc msd.

Definition set_SerialInt (v : Z) (g : GpgData) : GpgData :=
  let '(mkGpgData rd sr _ ln ch ri ap ve mf av db tv sms sm gcs mcl kis pws
    pud aac pso kdf pb2 mse mcc msd) := g in
  mkGpgData rd sr v ln ch ri ap ve mf av db tv sms sm gcs mcl kis pws pud aac
    pso kdf pb2 mse mcc msd.

Definition set_LongName (v : string) (g : GpgData) : GpgData :=
  let '(mkGpgData rd sr si _ ch ri ap ve mf av db tv sms sm gcs mcl kis pws
    pud aac pso kdf pb2 mse mcc msd) := g in
  mkGpgData rd sr si v ch ri ap ve mf av db tv sms sm gcs mcl kis pws pud aac
    pso kdf pb2 mse mcc msd.

Definition set_CardHolder (v : string) (g : GpgData) : GpgData :=
  let '(mkGpgData rd sr si ln _ ri ap ve mf av db tv sms sm gcs mcl kis pws
    pud aac pso kdf pb2 mse mcc msd) := g in
  mkGpgData rd sr si ln v ri ap ve mf av db tv sms sm gcs mcl kis pws pud aac
    pso kdf pb2 mse mcc msd.

Definition set_Rid (v : string) (g : GpgData) : GpgData :=
  let '(mkGpgData rd sr si ln ch _ ap ve mf av db tv sms sm gcs mcl kis pws
    pud aac pso kdf pb2 mse mcc msd) := g in
  mkGpgData rd sr si ln ch v ap ve mf av db tv sms sm gcs mcl kis pws pud aac
    pso kdf pb2 mse mcc msd.

Definition set_Application (v : string) (g : GpgData) : GpgData :=
  let '(mkGpgData rd sr si ln ch ri _ ve mf av db tv sms sm gcs mcl kis pws
    pud aac pso kdf pb2 mse mcc msd) := g in
  mkGpgData rd sr si ln ch ri v ve mf av db tv sms sm gcs mcl kis pws pud aac
    pso kdf pb2 mse mcc msd.

Definition set_Version (v : string) (g : GpgData) : GpgData :=
  let '(mkGpgData rd sr si ln ch ri ap _ mf av db tv sms sm gcs mcl kis pws
    pud aac pso kdf pb2 mse mcc msd) := g in
  mkGpgData rd sr si ln ch ri ap v mf av db tv sms sm gcs mcl kis pws pud aac
    pso kdf pb2 mse mcc msd.

Definition set_Manufacturer (v : string) (g : GpgData) : GpgData :=
  let '(mkGpgData rd sr si ln ch ri ap ve _ av db tv sms sm gcs mcl kis pws
    pud aac pso kdf pb2 mse mcc msd) := g in
  mkGpgData rd sr si ln ch ri ap ve v av db tv sms sm gcs mcl kis pws pud aac
    pso kdf pb2 mse mcc msd.

Definition set_SecureMessagingSupported (v : bool) (g : GpgData) : GpgData :=
  let '(mkGpgData rd sr si ln ch ri ap ve mf av db tv _ sm gcs mcl kis pws pud
    aac pso kdf pb2 mse mcc msd) := g in
  mkGpgData rd sr si ln ch ri ap ve mf av db tv v sm gcs mcl kis pws pud aac
    pso kdf pb2 mse mcc msd.

Definition set_SecureMessaging (v : byte) (g : GpgData) : GpgData :=
  let '(mkGpgData rd sr si ln ch ri ap ve mf av db tv sms _ gcs mcl kis pws
    pud aac pso kdf pb2 mse mcc msd) := g in
  mkGpgData rd sr si ln ch ri ap ve mf av db tv sms v gcs mcl kis pws pud aac
    pso kdf pb2 mse mcc msd.

Definition set_GetChallengeSupported (v : bool) (g : GpgData) : GpgData :=
  let '(mkGpgData rd sr si ln ch ri ap ve mf av db tv sms sm _ mcl kis pws pud
    aac pso kdf pb2 mse mcc msd) := g in
  mkGpgData rd sr si ln ch ri ap ve mf av db tv sms sm v mcl kis pws pud aac
    pso kdf pb2 mse mcc msd.

Definition set_MaximumChallengeLength (v : Z) (g : GpgData) : GpgData :=
  let '(mkGpgData rd sr si ln ch ri ap ve mf av db tv sms sm gcs _ kis pws pud
    aac pso kdf pb2 mse mcc msd) := g in
  mkGpgData rd sr si ln ch ri ap ve mf av db tv sms sm gcs v kis pws pud aac
    pso kdf pb2 mse mcc msd.

Definition set_KeyImportSupported (v : bool) (g : GpgData) : GpgData :=
  let '(mkGpgData rd sr si ln ch ri ap ve mf av db tv sms sm gcs mcl _ pws pud
    aac pso kdf pb2 mse mcc msd) := g in
  mkGpgData rd sr si ln ch ri ap ve mf av db tv sms sm gcs mcl v pws pud aac
    pso kdf pb2 mse mcc msd.

Definition set_PWStatusChangeable (v : bool) (g : GpgData) : GpgData :=
  let '(mkGpgData rd sr si ln ch ri ap ve mf av db tv sms sm gcs mcl kis _ pud
    aac pso kdf pb2 mse mcc msd) := g in
  mkGpgData rd sr si ln ch ri ap ve mf av db tv sms sm gcs mcl kis v pud aac
    pso kdf pb2 mse mcc msd.

Definition set_PrivateUseDOsSupported (v : bool) (g : GpgData) : GpgData :=
  let '(mkGpgData rd sr si ln ch ri ap ve mf av db tv sms sm gcs mcl kis pws _
    aac pso kdf pb2 mse mcc msd) := g in
  mkGpgData rd sr si ln ch ri ap ve mf av db tv sms sm gcs mcl kis pws v aac
    pso kdf pb2 mse mcc msd.

Definition set_AlgorithmAttributesChangeable (v : bool) (g : GpgData) : GpgData :=
  let '(mkGpgData rd sr si ln ch ri ap ve mf av db tv sms sm gcs mcl kis pws
    pud _ pso kdf pb2 mse mcc msd) := g in
  mkGpgData rd sr si ln ch ri ap ve mf av db tv sms sm gcs mcl kis pws pud v
    pso kdf pb2 mse mcc msd.

Definition set_SupportsPSODecryptionEncryptionWithAES (v : bool) (g : GpgData) : GpgData :=
  let '(mkGpgData rd sr si ln ch ri ap ve mf av db tv sms sm gcs mcl kis pws
    pud aac _ kdf pb2 mse mcc msd) := g in
  mkGpgData rd sr si ln ch ri ap ve mf av db tv sms sm gcs mcl kis pws pud aac
    v kdf pb2 mse mcc msd.

Definition set_KDFSupported (v : bool) (g : GpgData) : GpgData :=
  let '(mkGpgData rd sr si ln ch ri ap ve mf av db tv sms sm gcs mcl kis pws
    pud aac pso _ pb2 mse mcc msd) := g in
  mkGpgData rd sr si ln ch ri ap ve mf av db tv sms sm gcs mcl kis pws pud aac
    pso v pb2 mse mcc msd.

Definition set_PinBlock2Supported (v : bool) (g : GpgData) : GpgData :=
  let '(mkGpgData rd sr si ln ch ri ap ve mf av db tv sms sm gcs mcl kis pws
    pud aac pso kdf _ mse mcc msd) := g in
  mkGpgData rd sr si ln ch ri ap ve mf av db tv sms sm gcs mcl kis pws pud aac
    pso kdf v mse mcc msd.

Definition set_MSECommandSupported (v : bool) (g : GpgData) : GpgData :=
  let '(mkGpgData rd sr si ln ch ri ap ve mf av db tv sms sm gcs mcl kis pws
    pud aac pso kdf pb2 _ mcc msd) := g in
  mkGpgData rd sr si ln ch ri ap ve mf av db tv sms sm gcs mcl kis pws pud aac
    pso kdf pb2 v mcc msd.

Definition set_MaximumCardholderCertificatesLength (v : Z) (g : GpgData) : GpgData :=
  let '(mkGpgData rd sr si ln ch ri ap ve mf av db tv sms sm gcs mcl kis pws
    pud aac pso kdf pb2 mse _ msd) := g in
  mkGpgData rd sr si ln ch ri ap ve mf av db tv sms sm gcs mcl kis pws pud aac
    pso kdf pb2 mse v msd.

Definition set_MaximumSpecialDOsLength (v : Z) (g : GpgData) : GpgData :=
  let '(mkGpgData rd sr si ln ch ri ap ve mf av db tv sms sm gcs mcl kis pws
    pud aac pso kdf pb2 mse mcc _) := g in
  mkGpgData rd sr si ln ch ri ap ve mf av db tv sms sm gcs mcl kis pws pud aac
    pso kdf pb2 mse mcc v.
(** A method with receiver [g *GpgData]: the state is what [g] points to,
    [None] when [g] is nil. *)
Definition M (A : Type) : Type := option GpgData -> outcome (A * option GpgData).

Definition ret {A : Type} (a : A) : M A := fun g => Returns (a, g).

Definition bind {A B : Type} (m : M A) (k : A -> M B) : M B :=
  fun g => match m g with
           | Returns (a, g') => k a g'
           | Panics p => Panics p
           end.

Notation "x <- c ; k" := (bind c (fun x => k))
  (at level 20, c at level 100, k at level 200, only parsing).

(** A call of a function that has no receiver. *)
Definition call {A : Type} (o : outcome A) : M A :=
  fun g => match o with
           | Returns a => Returns (a, g)
           | Panics p => Panics p
           end.

(** [g == nil]. *)
Definition receiver_is_nil : M bool :=
  fun g => Returns (match g with None => true | Some _ => false end, g).

(** [g.F] read, and [g.F = v]: both dereference [g]. *)
Definition field {A : Type} (proj : GpgData -> A) : M A :=
  fun g => match g with
           | Some s => Returns (proj s, g)
           | None => Panics NilDereference
           end.

Definition assign (upd : GpgData -> GpgData) : M unit :=
  fun g => match g with
           | Some s => Returns (tt, Some (upd s))
           | None => Panics NilDereference
           end.

Notation "' pat <- c ; k" := (bind c (fun x => match x with pat => k end))
  (at level 20, pat pattern, c at level 100, k at level 200, only parsing).

Notation "' pat <~ c ; k" := (obind c (fun x => match x with pat => k end))
  (at level 20, pat pattern, c at level 100, k at level 200, only parsing).

(** The idiom [if err != nil { return f(err) }]. *)
Notation "err ?> f ; k" :=
  (match err with
   | Some e => ret (f e)
   | None => k
   end)
  (at level 20, f at level 100, k at level 200, only parsing).

(** ** The name normalizer *)

Definition NameNotSet : string := "[not set]".
Definition suffix : string := "<<".
Definition suffixLen : Z := Z.of_nat (String.length suffix).

(** [ParseCardHolderName(name)].  [builder] is the content of the
    [strings.Builder]. *)
Definition ParseCardHolderName (name : bytes) : outcome string :=
  if len name =? 0 then Returns NameNotSet else
  let nameString := string_of_list_byte (elems name) in
  let nameStringLen := Z.of_nat (String.length nameString) in
  if nameStringLen =? 0 then Returns NameNotSet else
  let builder := EmptyString in
  let i := strings_Index nameString "<<" in
  '(builder, i) <~
    (if 0 <=? i then
       rest <~ str_slice nameString (Int.add i suffixLen) nameStringLen;
       let builder := builder +:+ rest in
       if Int.add i suffixLen <? nameStringLen
       then Returns (builder +:+ nl, i)
       else Returns (builder, i)
     else Returns (builder, nameStringLen));
  front <~ str_slice nameString 0 i;
  Returns (builder +:+ strings_ReplaceAll front "<" " ").

(** ** Methods of the card record *)

(** [getKeyLen(keyType, len)]. *)
Definition getKeyLen (keyType : KeyType) (len_ : Z) : Z * Z :=
  let index_ := keyType in
  let offset := Int.mul index_ len_ in
  let expectedLen := Int.add offset len_ in
  (offset, expectedLen).

(** [isSupported(capabilitiesByte, flagValue)]. *)
Definition isSupported (capabilitiesByte : byte) (flagValue : Z) : bool :=
  Z.land (u8 capabilitiesByte) flagValue =? flagValue.

(** [g.HasTag(key)]; a missing key reads as the nil slice. *)
Definition HasTag (key : string) : M (Z * bool) :=
  m <- field tlvValues;
  match m !! key with
  | Some aid => ret (len aid, true)
  | None => ret (len None, false)
  end.

(** Modelled from the spec: [GetTag] is defined in a file that is not among
    the sources.  Section 7 of the specification: [NoSuchTag] when the
    "requested tag path [is] missing from the flattened mapping", [TooShort]
    when a field "is present but shorter than required"; its callers here
    pass the least length they go on to read ("make sure aid is long
    enough") and [loadExtendedData] recognises the absent tag with
    [errors.Is(err, ErrNoSuchTag)].  The mapping is read through [g], as in
    [HasTag]; of the callers here only [update] can reach it with a nil
    receiver. *)
Definition GetTag (key : string) (expectedLen : Z) : M (bytes * option error) :=
  m <- field tlvValues;
  match m !! key with
  | None => ret (None, Some (Sentinel ErrNoSuchTag))
  | Some data =>
      if len data <? expectedLen
      then ret (None, Some (Sentinel ErrTooShort))
      else ret (data, None)
  end.

(** The rendering of [infoTemplate] by [text/template]: the literal text
    with each [{{.Field}}] action replaced by the field.  The template is a
    constant that parses, and every action names an exported string field,
    so neither [Parse] nor [Execute] returns an error. *)
Definition infoTemplate (g : GpgData) : string :=
  nl +:+ "  Card:            " +:+ LongName g +:+
  nl +:+ "  RID:             " +:+ Rid g +:+
  nl +:+ "  Application:     " +:+ Application g +:+
  nl +:+ "  Version:         " +:+ Version g +:+
  nl +:+ "  Manufacturer:    " +:+ Manufacturer g +:+
  nl +:+ "  Serial Number:   " +:+ Serial g +:+
  nl +:+ "  Cardholder Name: " +:+ CardHolder g +:+ nl.

(** [g.String()]; the name [String] is the constructor of Rocq's strings. *)
Definition GpgData_String : M (string * option error) :=
  isnil <- receiver_is_nil;
  if isnil
  then ret (EmptyString, Some (Errorf "nil key for String: %w" ErrKeyNotPresent))
  else
    s <- field infoTemplate;
    ret (s, None).

(** The [switch] of [Algorithm]: the tag of a key type, if it has one. *)
Definition algorithmAttributesTag (keyType : KeyType) : option string :=
  if keyType =? SignatureKey then Some keyAlgorithmSignatureAttributesTag
  else if keyType =? DecryptionKey then Some keyAlgorithmDecryptionAttributesTag
  else if keyType =? AuthenticationKey then Some keyAlgorithmAuthenticationAttributesTag
  else None.

(** [g.Algorithm(keyType)].  The condition reads [data[0]] twice; the model
    reads it once. *)
Definition Algorithm (keyType : KeyType) : M (string * option error) :=
  isnil <- receiver_is_nil;
  if isnil
  then ret (EmptyString, Some (Errorf "nil key for Algorithm: %w" ErrKeyNotPresent))
  else
    match algorithmAttributesTag keyType with
    | None => ret (EmptyString, Some (Errorf "%w : unknown value: %d" ErrNoSuchTag))
    | Some key =>
        '(data, err) <- GetTag key 1;
        err ?> (fun e => (EmptyString, Some e));
        d0 <- call (index data 0);
        if (0 <? u8 d0) && (3 <? u8 d0) then
          if len data <? 3
          then ret (EmptyString,
                    Some (Errorf "%w: expected length [%d] > [3]" ErrNoSuchAlgorithm))
          else
            d1 <- call (index data 1);
            d2 <- call (index data 2);
            let algorithmNum := wrap16 (wrap16 (u8 d1 * 256) + u8 d2) in
            ret ("RSA " +:+ fmtd algorithmNum, None)
        else ret ("Alg=" +:+ fmtd_left 4 (u8 d0), None)
    end.

(** [g.Fingerprint(keyType)]. *)
Definition Fingerprint (keyType : KeyType) : M (string * option error) :=
  isnil <- receiver_is_nil;
  if isnil
  then ret (EmptyString, Some (Errorf "nil key for Fingerprint: %w" ErrKeyNotPresent))
  else
    let '(offset, expectedLen) := getKeyLen keyType keyFingerprintLen in
    '(data, err) <- GetTag keyInformationTag expectedLen;
    err ?> (fun e => (EmptyString,
                      Some (Errorf "unable to get tag %s for Fingerprint(%s): %w" e)));
    s <- call (slice data offset expectedLen);
    ret (UpperCaseHexString s, None).

(** [g.GetCardHolder()], [g.GetVersion()], [g.GetAppletVersion()]. *)
Definition GetCardHolder : M string :=
  isnil <- receiver_is_nil;
  if isnil then ret EmptyString else field CardHolder.

Definition GetVersion : M string :=
  isnil <- receiver_is_nil;
  if isnil then ret EmptyString else field Version.

Definition GetAppletVersion : M string :=
  isnil <- receiver_is_nil;
  if isnil then ret EmptyString else field AppletVersion.

(** [g.ID(keyType)]. *)
Definition ID (keyType : KeyType) : M (string * option error) :=
  isnil <- receiver_is_nil;
  if isnil
  then ret (EmptyString, Some (Errorf "nil key for ID: %w" ErrKeyNotPresent))
  else
    let '(_, expectedLen) := getKeyLen keyType keyFingerprintLen in
    '(data, err) <- GetTag keyInformationTag expectedLen;
    err ?> (fun e => (EmptyString,
                      Some (Errorf "unable to get tag %s for ID(%s): %w" e)));
    let start := Int.sub expectedLen 8 in
    s <- call (slice data start expectedLen);
    ret (UpperCaseHexString s, None).

(** [g.Date(keyType)]. *)
Definition Date (keyType : KeyType) : M (Time * option error) :=
  let rv := TimeZero in
  isnil <- receiver_is_nil;
  if isnil
  then ret (rv, Some (Errorf "nil key for Date: %w" ErrKeyNotPresent))
  else
    let '(offset, expectedLen) := getKeyLen keyType keyDateLen in
    '(data, err) <- GetTag keyDateTag expectedLen;
    err ?> (fun e => (rv, Some (Errorf "unable to get tag %s for Date(%s): %w" e)));
    dateData <- call (slice data offset expectedLen);
    word <- call (slice dateData 0 4);
    dateInt <- call (BigEndian_Uint32 word);
    ret (TimeUnix dateInt 0, None).

(** The zero value of the struct but for the fields a caller fills in
    before [update]: the reader name, the debug switch and the tag-path
    mapping.  The secure-messaging algorithm starts as Go's zero value. *)
Definition freshGpgData (reader : string) (dbg : bool) (tlv : gmap string bytes)
  : GpgData :=
  mkGpgData reader EmptyString 0 EmptyString EmptyString EmptyString EmptyString
    EmptyString EmptyString EmptyString dbg tlv false x00 false 0 false false
    false false false false false false 0 0.

(** ** Vocabulary of the specification *)

(** [sub] occurs in [s] at byte offset [n]. *)
Definition occurs_at (sub s : string) (n : nat) : Prop :=
  exists a b, s = a +:+ sub +:+ b /\ String.length a = n.

(** "Every [<] replaced with a space", character by character. *)
Definition lt_to_space (c : ascii) : ascii :=
  if Ascii.eqb c "<" then " "%char else c.

Fixpoint map_chars (f : ascii -> ascii) (s : string) : string :=
  match s with
  | EmptyString => EmptyString
  | String c s' => String (f c) (map_chars f s')
  end.

(** The last [n] characters of [s]. *)
Definition string_last (n : nat) (s : string) : string :=
  string_drop (String.length s - n) s.

(** ** Sample cards

    Data to run the model on.  The identifier is the 16-byte application
    identifier of an OpenPGP card; [sample_aid13] is cut to 13 bytes, the
    length [update] checks for. *)
Definition sample_aid16 : list byte :=
  [xd2; x76; x00; x01; x24; x01; x02; x01; x00; x06; x03; x64; x53; x11; x00; x00].

Definition sample_aid13 : list byte := firstn 13 sample_aid16.

Definition sample_fingerprints : list byte :=
  repeat x11 20 ++ repeat x22 20
  ++ [xa0; xa1; xa2; xa3; xa4; xa5; xa6; xa7; xa8; xa9;
      xb0; xb1; xb2; xb3; xb4; xb5; xb6; xb7; xb8; xb9].

Definition sample_tlv : gmap string bytes :=
  list_to_map
    [ ("6E.4F", Some sample_aid16);
      ("65.5B", Some (list_byte_of_string "DOE<<JOHN"));
      (keyAlgorithmSignatureAttributesTag, Some [x01; x08; x00; x00; x11; x00]);
      (keyAlgorithmDecryptionAttributesTag, Some [x12; x08; x00]);
      (keyAlgorithmAuthenticationAttributesTag, Some [x16; x2b]);
      (keyInformationTag, Some sample_fingerprints);
      (keyOriginAttributesTag, Some [x01; x02; x09; x00]);
      (extendedCapabilitiesTag,
       Some [x80; x02; x00; x00; x08; x00; x00; xff; x00; x01]) ].

Definition sample_card : GpgData := freshGpgData "Yubico YubiKey" false sample_tlv.

(** A card whose identifier is 13 bytes long and that answers no other tag. *)
Definition short_card : GpgData :=
  freshGpgData "Yubico YubiKey" false {[ "6E.4F" := Some sample_aid13 ]}.

(** A card that answers no tag at all. *)
Definition blank_card : GpgData := freshGpgData "Yubico YubiKey" false ∅.

(** Two more sample cards: one that answers only the creation-date tag, and
    one whose fingerprint tag holds a fourth entry. *)
Definition sample_dates : list byte :=
  [x5f; x00; x00; x00; x00; x00; x00; x00; x60; x01; x02; x03].

Definition dated_card : GpgData :=
  freshGpgData "Yubico YubiKey" false {[ keyDateTag := Some sample_dates ]}.

Definition four_slot_card : GpgData :=
  freshGpgData "Yubico YubiKey" false
    {[ keyInformationTag := Some (sample_fingerprints ++ repeat xcc 20) ]}.

(** The remaining methods use constants whose declarations are not among
    the sources and whose values neither the sources nor the specification
    give.  They are parameters of the model. *)
Section Card.

(** Length [Origin] asks [GetTag] for. *)
Variable KeyTypeSize : Z.
(** Highest known origin code, and the origin of a key that is absent. *)
Variable KeyOriginLast : KeyOrigin.
Variable KeyNotPresent : KeyOrigin.
(** Highest known secure-messaging algorithm, and the value of the field
    when the card has none.  [setSecureMessaging] converts the first with
    [byte(...)] and the field takes [SecureMessagingAlgorithm(smByte)], so
    the type is a byte. *)
Variable SecureMessagingAlgorithmLast : byte.
Variable NoSecureMessaging : byte.

(** [g.Origin(keyType)]. *)
Definition Origin (keyType : KeyType) : M (KeyOrigin * option error) :=
  let rv := KeyNotPresent in
  isnil <- receiver_is_nil;
  if isnil
  then ret (rv, Some (Errorf "nil key for Origin: %w" ErrKeyNotPresent))
  else
    '(tagLen, hasDate) <- HasTag keyOriginAttributesTag;
    if (tagLen =? 0) || negb hasDate
    then ret (KeyNotPresent,
              Some (Errorf "%w: key type %s not present" ErrKeyNotPresent))
    else
      '(data, err) <- GetTag keyOriginAttributesTag KeyTypeSize;
      err ?> (fun e => (KeyNotPresent, Some e));
      d <- call (index data (Offset keyType));
      let keyValue := u8 d in
      if uint KeyOriginLast <? keyValue
      then ret (rv, Some (Errorf
             "keyValue: [%d] > KeyOriginLast:[%d] for Origin(%s): %w"
             ErrUnknownKeyOrigin))
      else ret (keyValue, None).

(** [g.setSecureMessaging(capabilitiesByte, smByte)]. *)
Definition setSecureMessaging (capabilitiesByte smByte : byte) : M (option error) :=
  isnil <- receiver_is_nil;
  if isnil
  then ret (Some (Errorf "nil key for setSecureMessaging: %w" ErrKeyNotPresent))
  else if negb (Z.land (u8 capabilitiesByte) Flag.SecureMessaging
                =? Flag.SecureMessaging)
  then ret None
  else if u8 SecureMessagingAlgorithmLast <? u8 smByte
  then ret (Some (Sentinel ErrNoSuchAlgorithm))
  else
    _ <- assign (set_SecureMessagingSupported true);
    _ <- assign (set_SecureMessaging smByte);
    ret None.

(** [g.setGetChallengeSupported(capabilitiesByte, challenge)]. *)
Definition setGetChallengeSupported (capabilitiesByte : byte) (challenge : bytes)
  : M (option error) :=
  isnil <- receiver_is_nil;
  if isnil
  then ret (Some (Errorf "nil key for setGetChallengeSupported: %w" ErrKeyNotPresent))
  else if negb (Z.land (u8 capabilitiesByte) Flag.GetChallenge =? Flag.GetChallenge)
  then ret None
  else if negb (len challenge =? 2)
  then ret (Some (Sentinel ErrTooShort))
  else
    _ <- assign (set_GetChallengeSupported true);
    v <- call (BigEndian_Uint16 challenge);
    _ <- assign (set_MaximumChallengeLength v);
    ret None.

(** [g.loadExtendedData()]. *)
Definition loadExtendedData : M (option error) :=
  isnil <- receiver_is_nil;
  if isnil
  then ret (Some (Errorf "nil key for loadExtendedData: %w" ErrKeyNotPresent))
  else
    _ <- assign (set_SecureMessaging NoSecureMessaging);
    _ <- assign (set_MaximumChallengeLength 0);
    _ <- assign (set_MaximumCardholderCertificatesLength 0);
    _ <- assign (set_MaximumSpecialDOsLength 0);
    _ <- assign (set_PinBlock2Supported false);
    _ <- assign (set_MSECommandSupported false);
    '(tag, err) <- GetTag extendedCapabilitiesTag 10;
    match err with
    | Some e =>
        if errors_Is e ErrNoSuchTag then ret None
        else ret (Some (Errorf "loadExtendedData failed: %w" e))
    | None =>
        '(capabilitiesByte, err) <- call (getByteWith1BasedIndexing tag 1);
        err ?> (fun e => Some (Errorf
                  "loadExtendedData(setSecureMessaging) failed: %w" e));
        '(mByte, err) <- call (getByteWith1BasedIndexing tag 2);
        err ?> (fun e => Some (Errorf
                  "loadExtendedData(setSecureMessaging) failed: %w" e));
        err <- setSecureMessaging capabilitiesByte mByte;
        err ?> (fun e => Some (Errorf
                  "loadExtendedData(setSecureMessaging) failed: %w" e));
        '(bs, err) <- call (getBytesWith1BasedIndexing tag 3 4);
        err ?> (fun e => Some (Errorf
                  "loadExtendedData(setGetChallengeSupported) failed: %w" e));
        err <- setGetChallengeSupported capabilitiesByte bs;
        err ?> (fun e => Some (Errorf
                  "loadExtendedData(setGetChallengeSupported) failed: %w" e));
        _ <- assign (set_KeyImportSupported
                       (isSupported capabilitiesByte Flag.KeyImport));
        _ <- assign (set_PWStatusChangeable
                       (isSupported capabilitiesByte Flag.PWStatusChangeable));
        _ <- assign (set_PrivateUseDOsSupported
                       (isSupported capabilitiesByte Flag.PrivateUseDOs));
        _ <- assign (set_AlgorithmAttributesChangeable
                       (isSupported capabilitiesByte Flag.AlgorithmAttributesChangeable));
        _ <- assign (set_SupportsPSODecryptionEncryptionWithAES
                       (isSupported capabilitiesByte Flag.PSODECENCwithAES));
        _ <- assign (set_KDFSupported
                       (isSupported capabilitiesByte Flag.KDFSupported));
        '(bs, err) <- call (getBytesWith1BasedIndexing tag 5 6);
        err ?> (fun e => Some (Errorf
                  "loadExtendedData(MaximumCardholderCertificatesLength) failed: %w" e));
        v <- call (BigEndian_Uint16 bs);
        _ <- assign (set_MaximumCardholderCertificatesLength v);
        '(bs, err) <- call (getBytesWith1BasedIndexing tag 7 8);
        err ?> (fun e => Some (Errorf
                  "loadExtendedData(MaximumSpecialDOsLength) failed: %w" e));
        v <- call (BigEndian_Uint16 bs);
        _ <- assign (set_MaximumSpecialDOsLength v);
        '(b, err) <- call (getByteWith1BasedIndexing tag 9);
        err ?> (fun e => Some (Errorf
                  "loadExtendedData(PinBlock2Supported) failed: %w" e));
        _ <- assign (set_PinBlock2Supported (isSupported b 1));
        '(b, err) <- call (getByteWith1BasedIndexing tag 10);
        err ?> (fun e => Some (Errorf
                  "loadExtendedData(PinBlock2Supported) failed: %w" e));
        _ <- assign (set_MSECommandSupported (isSupported b 1));
        ret None
    end.

(** [g.update()].  Arguments of a call are evaluated left to right, so
    the index expressions run in the order they are written; [&&] does not
    evaluate its right operand when the left one is false. *)
Definition update : M (option error) :=
  '(aid, err) <- GetTag "6E.4F" 13;
  err ?> (fun e => Some e);
  a10 <- call (index aid 10);
  a11 <- call (index aid 11);
  a12 <- call (index aid 12);
  a13 <- call (index aid 13);
  _ <- assign (set_Serial (fmtX a10 +:+ fmt02X a11 +:+ fmt02X a12 +:+ fmt02X a13));
  word <- call (slice aid 10 14);
  serialInt <- call (BigEndian_Uint32 word);
  _ <- assign (set_SerialInt serialInt);
  reader <- field Reader;
  serial <- field Serial;
  a6 <- call (index aid 6);
  a7 <- call (index aid 7);
  _ <- assign (set_LongName
                 (reader +:+ " SN " +:+ serial +:+ " OpenPGP " +:+ fmtX a6 +:+ "."
                  +:+ fmtX a7));
  '(cardHolderBytes, _) <- GetTag "65.5B" 0;
  cardHolder <- call (ParseCardHolderName cardHolderBytes);
  _ <- assign (set_CardHolder cardHolder);
  rid <- call (slice aid 0 5);
  _ <- assign (set_Rid (UpperCaseHexString rid));
  a5 <- call (index aid 5);
  let app := if u8 a5 =? 1 then " (OpenPGP)" else EmptyString in
  app_byte <- call (slice aid 5 6);
  _ <- assign (set_Application (UpperCaseHexString app_byte +:+ app));
  a6 <- call (index aid 6);
  a7 <- call (index aid 7);
  _ <- assign (set_Version (fmtX a6 +:+ "." +:+ fmtX a7));
  a8 <- call (index aid 8);
  is_yubico <- (if u8 a8 =? 0
                then a9 <- call (index aid 9); ret (u8 a9 =? 6)
                else ret false);
  let mfg := if is_yubico : bool then " (YubiCo)" else EmptyString in
  a8 <- call (index aid 8);
  a9 <- call (index aid 9);
  _ <- assign (set_Manufacturer (fmt02X a8 +:+ fmt02X a9 +:+ mfg));
  err <- loadExtendedData;
  err ?> (fun e => Some e);
  ret None.

(** ** What the capability decoder stores *)

(** The fields [loadExtendedData] resets before it looks for the tag. *)
Definition reset_capabilities (s : GpgData) : GpgData :=
  let s := set_SecureMessaging NoSecureMessaging s in
  let s := set_MaximumChallengeLength 0 s in
  let s := set_MaximumCardholderCertificatesLength 0 s in
  let s := set_MaximumSpecialDOsLength 0 s in
  let s := set_PinBlock2Supported false s in
  set_MSECommandSupported false s.

(** The record after a tag that starts with the bytes [b1] to [b10] has been
    decoded, the secure-messaging byte being accepted: section 4.3 of the
    specification, field by field. *)
Definition decoded (b1 b2 b3 b4 b5 b6 b7 b8 b9 b10 : byte) (s : GpgData) : GpgData :=
  let s := reset_capabilities s in
  let s := if Z.testbit (u8 b1) 7
           then set_SecureMessaging b2 (set_SecureMessagingSupported true s)
           else s in
  let s := if Z.testbit (u8 b1) 6
           then set_MaximumChallengeLength (Z.lor (u8 b4) (Z.shiftl (u8 b3) 8))
                  (set_GetChallengeSupported true s)
           else s in
  let s := set_KeyImportSupported (Z.testbit (u8 b1) 5) s in
  let s := set_PWStatusChangeable (Z.testbit (u8 b1) 4) s in
  let s := set_PrivateUseDOsSupported (Z.testbit (u8 b1) 3) s in
  let s := set_AlgorithmAttributesChangeable (Z.testbit (u8 b1) 2) s in
  let s := set_SupportsPSODecryptionEncryptionWithAES (Z.testbit (u8 b1) 1) s in
  let s := set_KDFSupported (Z.testbit (u8 b1) 0) s in
  let s := set_MaximumCardholderCertificatesLength (Z.lor (u8 b6) (Z.shiftl (u8 b5) 8)) s in
  let s := set_MaximumSpecialDOsLength (Z.lor (u8 b8) (Z.shiftl (u8 b7) 8)) s in
  let s := set_PinBlock2Supported (Z.testbit (u8 b9) 0) s in
  set_MSECommandSupported (Z.testbit (u8 b10) 0) s.

(** The identity fields [update] derives from an application identifier
    that starts with the bytes [a0] to [a13], in the order it assigns them;
    [cardHolder] is the normalized cardholder name. *)
Definition identified (a0 a1 a2 a3 a4 a5 a6 a7 a8 a9 a10 a11 a12 a13 : byte)
           (cardHolder : string) (s : GpgData) : GpgData :=
  let serial := fmtX a10 +:+ fmt02X a11 +:+ fmt02X a12 +:+ fmt02X a13 in
  let version := fmtX a6 +:+ "." +:+ fmtX a7 in
  let s := set_Serial serial s in
  let s := set_SerialInt
             (Z.lor (Z.lor (Z.lor (u8 a13) (Z.shiftl (u8 a12) 8)) (Z.shiftl (u8 a11) 16))
                (Z.shiftl (u8 a10) 24)) s in
  let s := set_LongName (Reader s +:+ " SN " +:+ serial +:+ " OpenPGP " +:+ version) s in
  let s := set_CardHolder cardHolder s in
  let s := set_Rid (UpperCaseHexString (Some [a0; a1; a2; a3; a4])) s in
  let s := set_Application
             (UpperCaseHexString (Some [a5])
              +:+ (if u8 a5 =? 1 then " (OpenPGP)" else EmptyString)) s in
  let s := set_Version version s in
  set_Manufacturer
    (fmt02X a8 +:+ fmt02X a9
     +:+ (if (u8 a8 =? 0) && (u8 a9 =? 6) then " (YubiCo)" else EmptyString)) s.

(** * Theorems *)

(** ** Facts about the runtime model *)

Lemma wrap_inrange (z : Z) : Int.inrange z -> Int.wrap z = z.
Proof.
  unfold Int.inrange, Int.min, Int.max, Int.wrap. intros Hz.
  rewrite Z.mod_small; lia.
Qed.

Lemma wrap_min_pred : Int.wrap (Int.min - 1) = Int.max.
Proof. reflexivity. Qed.

Lemma len_nonneg (b : bytes) : 0 <= len b.
Proof. unfold len. lia. Qed.

Lemma len_Some (l : list byte) : len (Some l) = Z.of_nat (length l).
Proof. reflexivity. Qed.

Lemma index_inside (b : bytes) (i : Z) :
  0 <= i < len b -> exists x, index b i = Returns x /\ nth_error (elems b) (Z.to_nat i) = Some x.
Proof.
  intros Hi. unfold index, len in *.
  destruct (Z.ltb_spec i 0) as [Hneg | _]; [lia |].
  destruct (nth_error (elems b) (Z.to_nat i)) as [x |] eqn:Hnth.
  - exists x. split; reflexivity.
  - apply nth_error_None in Hnth. lia.
Qed.

Lemma index_outside (b : bytes) (i : Z) :
  i < 0 \/ len b <= i -> index b i = Panics IndexOutOfRange.
Proof.
  intros Hi. unfold index, len in *.
  destruct (Z.ltb_spec i 0) as [Hneg | Hpos]; [reflexivity |].
  destruct (nth_error (elems b) (Z.to_nat i)) as [x |] eqn:Hnth; [| reflexivity].
  assert (Hsome : nth_error (elems b) (Z.to_nat i) <> None) by congruence.
  apply nth_error_Some in Hsome. lia.
Qed.

Lemma slice_inside (l : list byte) (lo hi : Z) :
  0 <= lo <= hi -> hi <= len (Some l) ->
  slice (Some l) lo hi
  = Returns (Some (firstn (Z.to_nat (hi - lo)) (skipn (Z.to_nat lo) l))).
Proof.
  intros Hlo Hhi. unfold slice.
  destruct (Z.ltb_spec lo 0); [lia |].
  destruct (Z.ltb_spec hi lo); [lia |].
  destruct (Z.ltb_spec (len (Some l)) hi); [lia |].
  reflexivity.
Qed.

Lemma slice_outside (b : bytes) (lo hi : Z) :
  lo < 0 \/ hi < lo \/ len b < hi -> slice b lo hi = Panics SliceBoundsOutOfRange.
Proof.
  intros H. unfold slice.
  destruct (Z.ltb_spec lo 0); [reflexivity |].
  destruct (Z.ltb_spec hi lo); [reflexivity |].
  destruct (Z.ltb_spec (len b) hi); [reflexivity |].
  lia.
Qed.

(** ** The 1-based accessors *)

Lemma getByte_nil (i : Z) :
  getByteWith1BasedIndexing None i = Returns (x00, Some (Sentinel ErrNotFound)).
Proof. reflexivity. Qed.

Lemma getBytes_nil (start end_ : Z) :
  getBytesWith1BasedIndexing None start end_ = Returns (None, Some (Sentinel ErrNotFound)).
Proof. reflexivity. Qed.

Lemma getByte_above (b : bytes) (i : Z) :
  len b < i -> getByteWith1BasedIndexing b i = Returns (x00, Some (Sentinel ErrNotFound)).
Proof.
  intros Hi. unfold getByteWith1BasedIndexing.
  destruct (Z.ltb_spec (len b) i); [| lia].
  rewrite orb_true_r. reflexivity.
Qed.

Lemma getBytes_above (b : bytes) (start end_ : Z) :
  len b < start \/ len b < end_ ->
  getBytesWith1BasedIndexing b start end_ = Returns (None, Some (Sentinel ErrNotFound)).
Proof.
  intros Hi. unfold getBytesWith1BasedIndexing.
  destruct (Z.ltb_spec (len b) start), (Z.ltb_spec (len b) end_);
    rewrite ?orb_true_r; try reflexivity.
  lia.
Qed.

(** Below the upper bound the single-byte accessor goes on to the index
    expression [b[index-1]]. *)
Lemma getByte_reaches_index (l : list byte) (i : Z) :
  i <= len (Some l) ->
  getByteWith1BasedIndexing (Some l) i
  = (v <~ index (Some l) (Int.sub i 1); Returns (v, None)).
Proof.
  intros Hi. unfold getByteWith1BasedIndexing.
  destruct (Z.ltb_spec (len (Some l)) i); [lia |]. reflexivity.
Qed.

Lemma getBytes_reaches_slice (l : list byte) (start end_ : Z) :
  start <= len (Some l) -> end_ <= len (Some l) ->
  getBytesWith1BasedIndexing (Some l) start end_
  = (r <~ slice (Some l) (Int.sub start 1) end_; Returns (r, None)).
Proof.
  intros Hs He. unfold getBytesWith1BasedIndexing.
  destruct (Z.ltb_spec (len (Some l)) start); [lia |].
  destruct (Z.ltb_spec (len (Some l)) end_); [lia |]. reflexivity.
Qed.

(** [index - 1] in machine arithmetic: exact unless [index] is the least
    [int], where it wraps to the greatest. *)
Lemma sub_one_cases (i : Z) :
  Int.inrange i ->
  (Int.min < i /\ Int.sub i 1 = i - 1) \/ (i = Int.min /\ Int.sub i 1 = Int.max).
Proof.
  intros Hi. unfold Int.sub.
  destruct (Z.eq_dec i Int.min) as [-> | Hne].
  - right. split; reflexivity.
  - left. unfold Int.inrange in Hi. split; [lia |].
    apply wrap_inrange. unfold Int.inrange. unfold Int.min, Int.max in *. lia.
Qed.

Lemma getByte_ok (l : list byte) (i : Z) :
  1 <= i <= len (Some l) -> len (Some l) < Int.max ->
  exists v, getByteWith1BasedIndexing (Some l) i = Returns (v, None)
            /\ nth_error l (Z.to_nat (i - 1)) = Some v.
Proof.
  intros Hi Hlen. rewrite getByte_reaches_index by lia.
  unfold Int.sub. rewrite wrap_inrange
    by (unfold Int.inrange, Int.min, Int.max in *; lia).
  destruct (index_inside (Some l) (i - 1)) as (v & Hv & Hnth); [lia |].
  exists v. rewrite Hv. split; [reflexivity | exact Hnth].
Qed.

Lemma getByte_below (l : list byte) (i : Z) :
  Int.inrange i -> i < 1 -> len (Some l) < Int.max ->
  getByteWith1BasedIndexing (Some l) i = Panics IndexOutOfRange.
Proof.
  intros Hr Hi Hlen. pose proof (len_nonneg (Some l)) as Hnn.
  rewrite getByte_reaches_index by lia.
  destruct (sub_one_cases i Hr) as [[_ ->] | [_ ->]];
    rewrite index_outside; try reflexivity; lia.
Qed.

Lemma getBytes_ok (l : list byte) (start end_ : Z) :
  1 <= start -> start <= end_ + 1 -> end_ <= len (Some l) ->
  start <= len (Some l) -> len (Some l) < Int.max ->
  getBytesWith1BasedIndexing (Some l) start end_
  = Returns (Some (firstn (Z.to_nat (end_ - (start - 1)))
                     (skipn (Z.to_nat (start - 1)) l)), None).
Proof.
  intros Hs Hse He Hsl Hlen. rewrite getBytes_reaches_slice by lia.
  unfold Int.sub. rewrite wrap_inrange
    by (unfold Int.inrange, Int.min, Int.max in *; lia).
  rewrite slice_inside by lia. reflexivity.
Qed.

Lemma getBytes_below (l : list byte) (start end_ : Z) :
  Int.inrange start -> start < 1 \/ end_ + 1 < start ->
  start <= len (Some l) -> end_ <= len (Some l) -> len (Some l) < Int.max ->
  getBytesWith1BasedIndexing (Some l) start end_ = Panics SliceBoundsOutOfRange.
Proof.
  intros Hr Hbad Hsl He Hlen. pose proof (len_nonneg (Some l)) as Hnn.
  rewrite getBytes_reaches_slice by lia.
  destruct (sub_one_cases start Hr) as [[Hgt ->] | [-> ->]];
    rewrite slice_outside; try reflexivity; try lia.
Qed.

(** C8 (as amended).  For a block [l] of [N] bytes: byte 1 is read whenever
    [N >= 1]; byte [N+1] is [ErrNotFound]; the range [(N, N)] is read, and
    is the last byte, whenever [N >= 1]; the range [(1, N+1)] is
    [ErrNotFound]; and on a nil source both accessors return
    [ErrNotFound]. *)
Theorem accessor_boundaries (l : list byte) :
  len (Some l) < Int.max ->
  let N := len (Some l) in
  (1 <= N ->
   exists v, getByteWith1BasedIndexing (Some l) 1 = Returns (v, None)
             /\ nth_error l 0 = Some v)
  /\ getByteWith1BasedIndexing (Some l) (N + 1)
     = Returns (x00, Some (Sentinel ErrNotFound))
  /\ (1 <= N ->
      getBytesWith1BasedIndexing (Some l) N N
      = Returns (Some (skipn (length l - 1) l), None))
  /\ getBytesWith1BasedIndexing (Some l) 1 (N + 1)
     = Returns (None, Some (Sentinel ErrNotFound))
  /\ (forall i, getByteWith1BasedIndexing None i
                = Returns (x00, Some (Sentinel ErrNotFound)))
  /\ (forall start end_, getBytesWith1BasedIndexing None start end_
                         = Returns (None, Some (Sentinel ErrNotFound))).
Proof.
  intros Hlen N. subst N.
  split; [| split; [| split; [| split; [| split]]]].
  - intros HN. apply (getByte_ok l 1); lia.
  - apply getByte_above. lia.
  - intros HN. rewrite getBytes_ok by lia.
    rewrite len_Some in *.
    replace (Z.to_nat (Z.of_nat (length l) - 1)) with (length l - 1)%nat by lia.
    rewrite firstn_all2; [reflexivity |].
    rewrite length_skipn. lia.
  - apply getBytes_above. lia.
  - intros i. apply getByte_nil.
  - intros start end_. apply getBytes_nil.
Qed.

(** C10.  Each accessor returns [ErrNotFound] exactly when the source is nil
    or a position lies above the length of the block.  Below that bound
    nothing is checked: a call on a non-nil block returns a value exactly
    when [1 <= index], respectively [1 <= start <= end + 1], and every other
    call ends in an out-of-range panic of the index or slice expression. *)
Theorem accessors_check_upper_bound_only (b : bytes) (i start end_ : Z) :
  Int.inrange i -> Int.inrange start -> len b < Int.max ->
  ((exists v, getByteWith1BasedIndexing b i = Returns (v, Some (Sentinel ErrNotFound)))
   <-> (b = None \/ len b < i))
  /\ ((exists r, getBytesWith1BasedIndexing b start end_
                 = Returns (r, Some (Sentinel ErrNotFound)))
      <-> (b = None \/ len b < start \/ len b < end_))
  /\ (b <> None -> i <= len b ->
      ((exists v, getByteWith1BasedIndexing b i = Returns (v, None)) <-> 1 <= i)
      /\ (i < 1 -> getByteWith1BasedIndexing b i = Panics IndexOutOfRange))
  /\ (b <> None -> start <= len b -> end_ <= len b ->
      ((exists r, getBytesWith1BasedIndexing b start end_ = Returns (r, None))
       <-> 1 <= start <= end_ + 1)
      /\ (start < 1 \/ end_ + 1 < start ->
          getBytesWith1BasedIndexing b start end_ = Panics SliceBoundsOutOfRange)).
Proof.
  intros Hi Hstart Hlen. split; [| split; [| split]].
  - split.
    + intros [v Hv]. destruct b as [l |]; [| left; reflexivity]. right.
      destruct (Z.lt_ge_cases (len (Some l)) i) as [Hlt | Hge]; [exact Hlt |].
      destruct (Z.lt_ge_cases i 1) as [Hlow | Hhigh].
      * rewrite getByte_below in Hv by assumption. discriminate.
      * destruct (getByte_ok l i) as (w & Hw & _); [lia | assumption |].
        rewrite Hw in Hv. discriminate.
    + intros [-> | Hlt]; exists x00; [apply getByte_nil | apply getByte_above, Hlt].
  - split.
    + intros [r Hr]. destruct b as [l |]; [| left; reflexivity]. right.
      destruct (Z.lt_ge_cases (len (Some l)) start) as [Hlt | Hge]; [left; exact Hlt |].
      destruct (Z.lt_ge_cases (len (Some l)) end_) as [Hlt' | Hge']; [right; exact Hlt' |].
      destruct (Z_lt_ge_dec start 1) as [Hlow | Hhigh];
        [rewrite getBytes_below in Hr by (auto; lia); discriminate |].
      destruct (Z_lt_ge_dec (end_ + 1) start) as [Hgap | Hnogap];
        [rewrite getBytes_below in Hr by (auto; lia); discriminate |].
      rewrite getBytes_ok in Hr by lia. discriminate.
    + intros [-> | Habove]; exists None; [apply getBytes_nil | apply getBytes_above, Habove].
  - intros Hnn Hle. destruct b as [l |]; [| congruence]. split; [split |].
    + intros [v Hv]. destruct (Z.lt_ge_cases i 1) as [Hlow | Hhigh]; [| lia].
      rewrite getByte_below in Hv by assumption. discriminate.
    + intros Hone. destruct (getByte_ok l i) as (v & Hv & _); [lia | assumption |].
      exists v. exact Hv.
    + intros Hlow. apply getByte_below; assumption.
  - intros Hnn Hs He. destruct b as [l |]; [| congruence]. split; [split |].
    + intros [r Hr].
      destruct (Z_lt_ge_dec start 1) as [Hlow | Hhigh];
        [rewrite getBytes_below in Hr by (auto; lia); discriminate |].
      destruct (Z_lt_ge_dec (end_ + 1) start) as [Hgap | Hnogap];
        [rewrite getBytes_below in Hr by (auto; lia); discriminate |].
      lia.
    + intros Hok. rewrite getBytes_ok by lia. eexists. reflexivity.
    + intros Hbad. apply getBytes_below; assumption.
Qed.

(** ** Strings *)

Lemma append_nil_l (s : string) : EmptyString +:+ s = s.
Proof. reflexivity. Qed.

Lemma append_cons (c : ascii) (a b : string) : String c a +:+ b = String c (a +:+ b).
Proof. reflexivity. Qed.

Lemma append_nil_r (s : string) : s +:+ EmptyString = s.
Proof.
  induction s as [| c s IH]; [reflexivity |].
  rewrite append_cons, IH. reflexivity.
Qed.

Lemma append_assoc (a b c : string) : (a +:+ b) +:+ c = a +:+ b +:+ c.
Proof.
  induction a as [| x a IH]; [reflexivity |].
  rewrite !append_cons, IH. reflexivity.
Qed.

Lemma length_append (a b : string) :
  String.length (a +:+ b) = (String.length a + String.length b)%nat.
Proof.
  induction a as [| x a IH]; [reflexivity |].
  rewrite append_cons. simpl. rewrite IH. reflexivity.
Qed.

Lemma length_string_of_bytes (l : list byte) :
  String.length (string_of_list_byte l) = length l.
Proof.
  unfold string_of_list_byte.
  induction l as [| x l IH]; simpl; [reflexivity | now rewrite IH].
Qed.

Lemma string_drop_append (a b : string) : string_drop (String.length a) (a +:+ b) = b.
Proof.
  induction a as [| x a IH]; [now destruct b |].
  rewrite append_cons. simpl. exact IH.
Qed.

Lemma string_take_append (a b : string) : string_take (String.length a) (a +:+ b) = a.
Proof.
  induction a as [| x a IH]; [now destruct b |].
  rewrite append_cons. simpl. rewrite IH. reflexivity.
Qed.

Lemma string_take_all (s : string) : string_take (String.length s) s = s.
Proof.
  pose proof (string_take_append s EmptyString) as H.
  rewrite append_nil_r in H. exact H.
Qed.

Lemma prefix_nil (s : string) : String.prefix EmptyString s = true.
Proof. destruct s; reflexivity. Qed.

Lemma prefix_append (a b : string) : String.prefix a (a +:+ b) = true.
Proof.
  induction a as [| x a IH]; [apply prefix_nil |].
  rewrite append_cons. simpl.
  destruct (Ascii.ascii_dec x x); [exact IH | congruence].
Qed.

Lemma prefix_inv (a s : string) : String.prefix a s = true -> exists b, s = a +:+ b.
Proof.
  revert s. induction a as [| x a IH]; intros s H.
  - exists s. reflexivity.
  - destruct s as [| y s]; simpl in H; [discriminate |].
    destruct (Ascii.ascii_dec x y) as [-> | _]; [| discriminate].
    destruct (IH s H) as [b ->]. exists b. reflexivity.
Qed.

Lemma occurs_at_0 (sub s : string) : occurs_at sub s 0 <-> String.prefix sub s = true.
Proof.
  split.
  - intros (a & b & -> & Ha). destruct a; [| discriminate].
    rewrite append_nil_l. apply prefix_append.
  - intros H. destruct (prefix_inv _ _ H) as [b ->].
    exists EmptyString, b. split; reflexivity.
Qed.

Lemma occurs_at_S (sub s : string) (c : ascii) (n : nat) :
  occurs_at sub (String c s) (S n) <-> occurs_at sub s n.
Proof.
  split.
  - intros (a & b & Heq & Ha). destruct a as [| x a]; [discriminate |].
    rewrite append_cons in Heq. simpl in Ha.
    injection Heq as _ ->. exists a, b. split; [reflexivity | lia].
  - intros (a & b & -> & Ha). exists (String c a), b. split; simpl; [reflexivity | lia].
Qed.

Lemma occurs_at_nil (sub : string) (n : nat) :
  occurs_at sub EmptyString n -> sub = EmptyString /\ n = 0%nat.
Proof.
  intros (a & b & Heq & Ha).
  destruct a; [| rewrite append_cons in Heq; discriminate].
  destruct sub; [| rewrite append_nil_l, append_cons in Heq; discriminate].
  split; [reflexivity | simpl in Ha; lia].
Qed.

(** [strings.Index] returns -1 when there is no occurrence, and the offset
    of the leftmost one otherwise. *)
Lemma strings_Index_from_spec (sub s : string) (pos : Z) :
  (strings_Index_from pos s sub = -1 /\ forall m, ~ occurs_at sub s m)
  \/ (exists n, strings_Index_from pos s sub = pos + Z.of_nat n
                /\ occurs_at sub s n
                /\ forall m, occurs_at sub s m -> (n <= m)%nat).
Proof.
  revert pos. induction s as [| c s IH]; intros pos.
  - cbn [strings_Index_from].
    destruct (String.prefix sub EmptyString) eqn:Hp.
    + right. exists 0%nat. split; [lia |]. split; [now apply occurs_at_0 | intros; lia].
    + left. split; [reflexivity |]. intros m Hm.
      destruct (occurs_at_nil _ _ Hm) as [-> _]. discriminate.
  - cbn [strings_Index_from].
    destruct (String.prefix sub (String c s)) eqn:Hp.
    + right. exists 0%nat. split; [lia |]. split; [now apply occurs_at_0 | intros; lia].
    + destruct (IH (pos + 1)) as [[Hnone Hno] | (n & Hn & Hocc & Hmin)].
      * left. split; [exact Hnone |]. intros [| m] Hm.
        -- apply occurs_at_0 in Hm. congruence.
        -- apply occurs_at_S in Hm. exact (Hno m Hm).
      * right. exists (S n). split; [lia |]. split; [now apply occurs_at_S |].
        intros [| m] Hm.
        -- apply occurs_at_0 in Hm. congruence.
        -- apply occurs_at_S in Hm. specialize (Hmin m Hm). lia.
Qed.

Lemma strings_Index_found (sub s : string) (n : nat) :
  occurs_at sub s n -> (forall m, occurs_at sub s m -> (n <= m)%nat) ->
  strings_Index s sub = Z.of_nat n.
Proof.
  intros Hocc Hmin. unfold strings_Index.
  destruct (strings_Index_from_spec sub s 0) as [[_ Hno] | (k & -> & Hk & Hkmin)].
  - destruct (Hno n Hocc).
  - specialize (Hmin k Hk). specialize (Hkmin n Hocc). lia.
Qed.

Lemma strings_Index_missing (sub s : string) :
  (forall m, ~ occurs_at sub s m) -> strings_Index s sub = -1.
Proof.
  intros Hno. unfold strings_Index.
  destruct (strings_Index_from_spec sub s 0) as [[-> _] | (k & _ & Hk & _)].
  - reflexivity.
  - destruct (Hno k Hk).
Qed.

Lemma ReplaceAll_lt (s : string) : strings_ReplaceAll s "<" " " = map_chars lt_to_space s.
Proof.
  unfold strings_ReplaceAll. induction s as [| c s IH]; [reflexivity |].
  cbn [replace_scan map_chars String.prefix]. unfold lt_to_space.
  destruct (Ascii.ascii_dec "<" c) as [<- | Hne].
  - rewrite prefix_nil. cbn [String.length Nat.sub Ascii.eqb Bool.eqb].
    rewrite IH. reflexivity.
  - destruct (Ascii.eqb_spec c "<") as [-> | _]; [congruence |].
    rewrite IH. reflexivity.
Qed.

Lemma str_slice_inside (s : string) (lo hi : Z) :
  0 <= lo <= hi -> hi <= Z.of_nat (String.length s) ->
  str_slice s lo hi
  = Returns (string_take (Z.to_nat (hi - lo)) (string_drop (Z.to_nat lo) s)).
Proof.
  intros Hlo Hhi. unfold str_slice.
  destruct (Z.ltb_spec lo 0); [lia |].
  destruct (Z.ltb_spec hi lo); [lia |].
  destruct (Z.ltb_spec (Z.of_nat (String.length s)) hi); [lia |].
  reflexivity.
Qed.

(** ** The name normalizer *)

Lemma ParseCardHolderName_empty (name : bytes) :
  len name = 0 -> ParseCardHolderName name = Returns NameNotSet.
Proof. intros H. unfold ParseCardHolderName. rewrite H. reflexivity. Qed.

Lemma ParseCardHolderName_marker (name : bytes) (pre post : string) :
  len name <= Int.max ->
  string_of_list_byte (elems name) = pre +:+ "<<" +:+ post ->
  (forall m, occurs_at "<<" (pre +:+ "<<" +:+ post) m -> (String.length pre <= m)%nat) ->
  ParseCardHolderName name
  = Returns (match post with
             | EmptyString => post
             | String _ _ => post +:+ nl
             end +:+ map_chars lt_to_space pre).
Proof.
  intros Hfit Hs Hfirst.
  assert (Hlen : len name = Z.of_nat (String.length pre) + 2 + Z.of_nat (String.length post)).
  { unfold len. rewrite <- length_string_of_bytes, Hs, !length_append. simpl. lia. }
  unfold ParseCardHolderName.
  destruct (Z.eqb_spec (len name) 0) as [H0 | _]; [lia |].
  rewrite Hs.
  assert (Hsl : Z.of_nat (String.length (pre +:+ "<<" +:+ post)) = len name).
  { rewrite Hlen, !length_append. simpl. lia. }
  rewrite Hsl.
  destruct (Z.eqb_spec (len name) 0) as [H0 | _]; [lia |].
  rewrite (strings_Index_found "<<" _ (String.length pre));
    [| exists pre, post; split; reflexivity | exact Hfirst].
  destruct (Z.leb_spec 0 (Z.of_nat (String.length pre))) as [_ | Hneg]; [| lia].
  assert (Hadd : Int.add (Z.of_nat (String.length pre)) suffixLen
                 = Z.of_nat (String.length pre) + 2).
  { unfold Int.add, suffixLen. simpl String.length.
    apply wrap_inrange. unfold Int.inrange, Int.min, Int.max in *. lia. }
  rewrite Hadd.
  rewrite str_slice_inside by lia.
  replace (Z.to_nat (Z.of_nat (String.length pre) + 2))
    with (String.length (pre +:+ "<<")) by (rewrite length_append; simpl; lia).
  rewrite <- (append_assoc pre "<<" post) at 1.
  rewrite string_drop_append.
  replace (Z.to_nat (len name - (Z.of_nat (String.length pre) + 2)))
    with (String.length post) by lia.
  rewrite string_take_all. cbn [obind].
  assert (Hfront : str_slice (pre +:+ "<<" +:+ post) 0 (Z.of_nat (String.length pre))
                   = Returns pre).
  { rewrite str_slice_inside by lia.
    change (Z.to_nat 0) with 0%nat. cbn [string_drop].
    replace (Z.to_nat (Z.of_nat (String.length pre) - 0)) with (String.length pre) by lia.
    rewrite string_take_append. reflexivity. }
  destruct (Z.ltb_spec (Z.of_nat (String.length pre) + 2) (len name)) as [Hlt | Hge];
    cbn [obind]; rewrite Hfront; cbn [obind]; rewrite ReplaceAll_lt.
  - destruct post; [simpl in Hlen; lia | reflexivity].
  - destruct post; [reflexivity | simpl in Hlen; lia].
Qed.

Lemma ParseCardHolderName_no_marker (name : bytes) :
  0 < len name ->
  (forall m, ~ occurs_at "<<" (string_of_list_byte (elems name)) m) ->
  ParseCardHolderName name
  = Returns (map_chars lt_to_space (string_of_list_byte (elems name))).
Proof.
  intros Hpos Hno.
  assert (Hsl : Z.of_nat (String.length (string_of_list_byte (elems name))) = len name).
  { unfold len. now rewrite length_string_of_bytes. }
  unfold ParseCardHolderName.
  destruct (Z.eqb_spec (len name) 0) as [H0 | _]; [lia |].
  rewrite Hsl.
  destruct (Z.eqb_spec (len name) 0) as [H0 | _]; [lia |].
  rewrite (strings_Index_missing "<<" _ Hno). cbn [Z.leb Z.compare obind].
  rewrite str_slice_inside by lia.
  change (Z.to_nat 0) with 0%nat. cbn [string_drop obind].
  replace (Z.to_nat (len name - 0))
    with (String.length (string_of_list_byte (elems name))) by lia.
  rewrite string_take_all, ReplaceAll_lt. reflexivity.
Qed.

(** C3.  A zero-length input gives ["[not set]"].  For an input that holds
    the marker, with [pre] the text before its first occurrence and [post]
    the text after it, the result is [post], a newline when [post] is not
    empty, then [pre] with each [<] turned into a space.  For a non-empty
    input without the marker the result is the whole input with each [<]
    turned into a space.  The three sample names of the specification come
    out as it says. *)
Theorem ParseCardHolderName_spec (name : bytes) :
  len name <= Int.max ->
  let s := string_of_list_byte (elems name) in
  (len name = 0 -> ParseCardHolderName name = Returns "[not set]")
  /\ (forall pre post,
        s = pre +:+ "<<" +:+ post ->
        (forall m, occurs_at "<<" s m -> (String.length pre <= m)%nat) ->
        ParseCardHolderName name
        = Returns (match post with
                   | EmptyString => post
                   | String _ _ => post +:+ nl
                   end +:+ map_chars lt_to_space pre))
  /\ (0 < len name -> (forall m, ~ occurs_at "<<" s m) ->
      ParseCardHolderName name = Returns (map_chars lt_to_space s))
  /\ ParseCardHolderName (Some (list_byte_of_string "DOE<<JOHN"))
     = Returns ("JOHN" +:+ nl +:+ "DOE")
  /\ ParseCardHolderName (Some (list_byte_of_string "DOE")) = Returns "DOE"
  /\ ParseCardHolderName (Some (list_byte_of_string "VAN<DER<BERG<<ANNA"))
     = Returns ("ANNA" +:+ nl +:+ "VAN DER BERG").
Proof.
  intros Hfit s. subst s.
  split; [| split; [| split; [| split; [| split]]]].
  - apply ParseCardHolderName_empty.
  - intros pre post Hs Hfirst. rewrite Hs in Hfirst.
    now apply ParseCardHolderName_marker.
  - apply ParseCardHolderName_no_marker.
  - vm_compute. reflexivity.
  - vm_compute. reflexivity.
  - vm_compute. reflexivity.
Qed.

(** ** Running a method *)

Lemma bind_returns {A B : Type} (m : M A) (k : A -> M B) (g g' : option GpgData) (a : A) :
  m g = Returns (a, g') -> bind m k g = k a g'.
Proof. intros H. unfold bind. rewrite H. reflexivity. Qed.

Lemma bind_panics {A B : Type} (m : M A) (k : A -> M B) (g : option GpgData) (p : panic) :
  m g = Panics p -> bind m k g = Panics p.
Proof. intros H. unfold bind. rewrite H. reflexivity. Qed.

Lemma call_returns {A : Type} (o : outcome A) (a : A) (g : option GpgData) :
  o = Returns a -> call o g = Returns (a, g).
Proof. intros ->. reflexivity. Qed.

Lemma call_panics {A : Type} (o : outcome A) (p : panic) (g : option GpgData) :
  o = Panics p -> call o g = Panics p.
Proof. intros ->. reflexivity. Qed.

Lemma GetTag_present (g : GpgData) (key : string) (n : Z) (data : bytes) :
  tlvValues g !! key = Some data -> n <= len data ->
  GetTag key n (Some g) = Returns ((data, None), Some g).
Proof.
  intros Hkey Hn. unfold GetTag, bind, field, ret. rewrite Hkey.
  destruct (Z.ltb_spec (len data) n); [lia | reflexivity].
Qed.

Lemma GetTag_short (g : GpgData) (key : string) (n : Z) (data : bytes) :
  tlvValues g !! key = Some data -> len data < n ->
  GetTag key n (Some g) = Returns ((None, Some (Sentinel ErrTooShort)), Some g).
Proof.
  intros Hkey Hn. unfold GetTag, bind, field, ret. rewrite Hkey.
  destruct (Z.ltb_spec (len data) n); [reflexivity | lia].
Qed.

Lemma GetTag_absent (g : GpgData) (key : string) (n : Z) :
  tlvValues g !! key = None ->
  GetTag key n (Some g) = Returns ((None, Some (Sentinel ErrNoSuchTag)), Some g).
Proof. intros Hkey. unfold GetTag, bind, field, ret. rewrite Hkey. reflexivity. Qed.

Lemma u8_range (b : byte) : 0 <= u8 b < 256.
Proof. unfold u8. pose proof (Byte.to_N_bounded b). lia. Qed.

Lemma index_at (b : bytes) (i : Z) (x : byte) :
  0 <= i -> nth_error (elems b) (Z.to_nat i) = Some x -> index b i = Returns x.
Proof.
  intros Hi Hx. unfold index.
  destruct (Z.ltb_spec i 0); [lia |]. rewrite Hx. reflexivity.
Qed.

(** ** Accessors on a nil record *)

(** C9.  On a nil record each per-key accessor returns an error that wraps
    [ErrKeyNotPresent], without panicking, and the three plain getters
    return the empty string. *)
Theorem nil_record_accessors (keyType : KeyType) :
  (exists e, Algorithm keyType None = Returns ((EmptyString, Some e), None)
             /\ errors_Is e ErrKeyNotPresent = true)
  /\ (exists e, Fingerprint keyType None = Returns ((EmptyString, Some e), None)
                /\ errors_Is e ErrKeyNotPresent = true)
  /\ (exists e, ID keyType None = Returns ((EmptyString, Some e), None)
                /\ errors_Is e ErrKeyNotPresent = true)
  /\ (exists e, Date keyType None = Returns ((TimeZero, Some e), None)
                /\ errors_Is e ErrKeyNotPresent = true)
  /\ (exists e, Origin keyType None = Returns ((KeyNotPresent, Some e), None)
                /\ errors_Is e ErrKeyNotPresent = true)
  /\ (exists e, GpgData_String None = Returns ((EmptyString, Some e), None)
                /\ errors_Is e ErrKeyNotPresent = true)
  /\ GetCardHolder None = Returns (EmptyString, None)
  /\ GetVersion None = Returns (EmptyString, None)
  /\ GetAppletVersion None = Returns (EmptyString, None).
Proof.
  repeat match goal with
         | |- _ /\ _ => split
         | |- exists e, _ => eexists; split; [reflexivity | reflexivity]
         end; reflexivity.
Qed.

(** ** Algorithm *)

Lemma fmtd_left_small (v : Z) :
  0 <= v <= 3 -> fmtd_left 4 v = fmtd v +:+ "   ".
Proof.
  intros Hv.
  assert (Hc : v = 0 \/ v = 1 \/ v = 2 \/ v = 3) by lia.
  destruct Hc as [-> | [-> | [-> | ->]]]; reflexivity.
Qed.

Lemma Algorithm_reads_tag (g : GpgData) (keyType : KeyType) (key : string)
      (data : bytes) (d0 : byte) :
  algorithmAttributesTag keyType = Some key ->
  tlvValues g !! key = Some data ->
  nth_error (elems data) 0 = Some d0 ->
  Algorithm keyType (Some g)
  = if 3 <? u8 d0
    then if len data <? 3
         then Returns ((EmptyString,
                        Some (Errorf "%w: expected length [%d] > [3]" ErrNoSuchAlgorithm)),
                       Some g)
         else match nth_error (elems data) 1, nth_error (elems data) 2 with
              | Some d1, Some d2 =>
                  Returns (("RSA " +:+ fmtd (u8 d1 * 256 + u8 d2), None), Some g)
              | _, _ => Panics IndexOutOfRange
              end
    else Returns (("Alg=" +:+ fmtd_left 4 (u8 d0), None), Some g).
Proof.
  intros Htag Hkey Hd0.
  assert (Hlen : 1 <= len data).
  { unfold len. destruct (elems data); [discriminate | simpl; lia]. }
  unfold Algorithm. rewrite Htag.
  rewrite (bind_returns _ _ (Some g) (Some g) false) by reflexivity.
  rewrite (bind_returns _ _ _ _ _ (GetTag_present g key 1 data Hkey Hlen)).
  rewrite (bind_returns _ _ (Some g) (Some g) d0)
    by (apply call_returns, index_at; [lia | exact Hd0]).
  pose proof (u8_range d0) as Hr0.
  destruct (Z.ltb_spec 3 (u8 d0)) as [Hrsa | Hgen].
  - destruct (Z.ltb_spec 0 (u8 d0)); [| lia]. cbn [andb].
    destruct (Z.ltb_spec (len data) 3) as [Hshort | Hlong]; [reflexivity |].
    destruct (index_inside data 1) as (d1 & Hi1 & Hn1); [lia |].
    destruct (index_inside data 2) as (d2 & Hi2 & Hn2); [lia |].
    change (Z.to_nat 1) with 1%nat in Hn1. change (Z.to_nat 2) with 2%nat in Hn2.
    rewrite Hn1, Hn2.
    rewrite (bind_returns _ _ (Some g) (Some g) d1) by (apply call_returns, Hi1).
    rewrite (bind_returns _ _ (Some g) (Some g) d2) by (apply call_returns, Hi2).
    pose proof (u8_range d1). pose proof (u8_range d2).
    unfold wrap16. rewrite (Z.mod_small (u8 d1 * 256)) by lia.
    rewrite Z.mod_small by lia. reflexivity.
  - rewrite andb_false_r. reflexivity.
Qed.

(** C1.  For the signature, decryption and authentication keys, and a
    present tag value whose first byte is [d0]: when [d0 > 3] and the value
    has three bytes or more the result is ["RSA "] followed by the decimal
    16-bit big-endian number of the second and third bytes; when [d0 > 3]
    and the value is shorter the call fails with [ErrNoSuchAlgorithm]; when
    [d0 <= 3] the result is ["Alg="] followed by the code left-justified in
    four columns.  So an ["RSA "] result is returned exactly when [d0 > 0],
    [d0 > 3] and three bytes are present. *)
Theorem Algorithm_spec (g : GpgData) (keyType : KeyType) (key : string)
        (data : bytes) (d0 : byte) :
  keyType = SignatureKey \/ keyType = DecryptionKey \/ keyType = AuthenticationKey ->
  algorithmAttributesTag keyType = Some key ->
  tlvValues g !! key = Some data ->
  nth_error (elems data) 0 = Some d0 ->
  (3 < u8 d0 -> 3 <= len data ->
   exists d1 d2,
     nth_error (elems data) 1 = Some d1 /\ nth_error (elems data) 2 = Some d2
     /\ Algorithm keyType (Some g)
        = Returns (("RSA " +:+ fmtd (u8 d1 * 256 + u8 d2), None), Some g))
  /\ (3 < u8 d0 -> len data < 3 ->
      exists e, Algorithm keyType (Some g) = Returns ((EmptyString, Some e), Some g)
                /\ errors_Is e ErrNoSuchAlgorithm = true)
  /\ (u8 d0 <= 3 ->
      Algorithm keyType (Some g)
      = Returns (("Alg=" +:+ fmtd (u8 d0) +:+ "   ", None), Some g)
      /\ fmtd (u8 d0) +:+ "   " = fmtd_left 4 (u8 d0))
  /\ ((exists n, Algorithm keyType (Some g)
                 = Returns (("RSA " +:+ fmtd n, None), Some g))
      <-> (0 < u8 d0 /\ 3 < u8 d0 /\ 3 <= len data)).
Proof.
  intros _ Htag Hkey Hd0.
  pose proof (Algorithm_reads_tag g keyType key data d0 Htag Hkey Hd0) as Hrun.
  pose proof (u8_range d0) as Hr0.
  assert (Hrsa : 3 < u8 d0 -> 3 <= len data ->
                 exists d1 d2,
                   nth_error (elems data) 1 = Some d1 /\ nth_error (elems data) 2 = Some d2
                   /\ Algorithm keyType (Some g)
                      = Returns (("RSA " +:+ fmtd (u8 d1 * 256 + u8 d2), None), Some g)).
  { intros Hgt Hlen. rewrite Hrun.
    destruct (Z.ltb_spec 3 (u8 d0)); [| lia].
    destruct (Z.ltb_spec (len data) 3); [lia |].
    destruct (index_inside data 1) as (d1 & _ & Hn1); [lia |].
    destruct (index_inside data 2) as (d2 & _ & Hn2); [lia |].
    change (Z.to_nat 1) with 1%nat in Hn1. change (Z.to_nat 2) with 2%nat in Hn2.
    exists d1, d2. rewrite Hn1, Hn2. repeat split; reflexivity. }
  split; [exact Hrsa |]. split; [| split].
  - intros Hgt Hlen. rewrite Hrun.
    destruct (Z.ltb_spec 3 (u8 d0)); [| lia].
    destruct (Z.ltb_spec (len data) 3); [| lia].
    eexists. split; reflexivity.
  - intros Hle. rewrite Hrun.
    destruct (Z.ltb_spec 3 (u8 d0)); [lia |].
    rewrite fmtd_left_small by lia. split; reflexivity.
  - split.
    + intros [n Hn]. rewrite Hrun in Hn.
      destruct (Z.ltb_spec 3 (u8 d0)) as [Hgt | Hle].
      * destruct (Z.ltb_spec (len data) 3) as [Hshort | Hlong]; [discriminate | lia].
      * rewrite !append_cons in Hn. discriminate Hn.
    + intros (_ & Hgt & Hlen). destruct (Hrsa Hgt Hlen) as (d1 & d2 & _ & _ & Heq).
      eexists. exact Heq.
Qed.

(** ** Fingerprint and ID *)

Lemma hex_cons (x : byte) (l : list byte) :
  UpperCaseHexString (Some (x :: l)) = fmt02X x +:+ UpperCaseHexString (Some l).
Proof. reflexivity. Qed.

Lemma hex_app (l1 l2 : list byte) :
  UpperCaseHexString (Some (l1 ++ l2))
  = UpperCaseHexString (Some l1) +:+ UpperCaseHexString (Some l2).
Proof.
  induction l1 as [| x l1 IH]; [reflexivity |].
  change ((x :: l1) ++ l2) with (x :: (l1 ++ l2)).
  rewrite !hex_cons, IH, append_assoc. reflexivity.
Qed.

Lemma hex_length (l : list byte) :
  String.length (UpperCaseHexString (Some l)) = (2 * length l)%nat.
Proof.
  induction l as [| x l IH]; [reflexivity |].
  rewrite hex_cons, length_append, IH. simpl. lia.
Qed.

Lemma getKeyLen_small (keyType : KeyType) (w : Z) :
  0 <= keyType <= 3 -> 0 <= w <= 20 ->
  getKeyLen keyType w = (keyType * w, keyType * w + w).
Proof.
  intros Hk Hw. unfold getKeyLen, Int.mul, Int.add.
  rewrite (wrap_inrange (keyType * w))
    by (unfold Int.inrange, Int.min, Int.max; nia).
  rewrite wrap_inrange by (unfold Int.inrange, Int.min, Int.max; nia).
  reflexivity.
Qed.

(** C7.  For a key type of ordinal 0, 1 or 2 and a fingerprint tag that
    reaches the end of that key's entry, [Fingerprint] is the uppercase
    hexadecimal text (40 characters) of the 20 bytes at offset [20 * k],
    and [ID] is the last 16 characters of that text, the hexadecimal text
    of the last 8 of those bytes.  With a 60-byte tag and the
    authentication key the 20 bytes are those at offsets 40 to 59. *)
Theorem Fingerprint_ID_spec (g : GpgData) (keyType : KeyType) (data : bytes) :
  0 <= keyType <= 2 ->
  tlvValues g !! keyInformationTag = Some data ->
  (keyType + 1) * 20 <= len data ->
  let entry := firstn 20 (skipn (Z.to_nat (keyType * 20)) (elems data)) in
  let fingerprint := UpperCaseHexString (Some entry) in
  length entry = 20%nat
  /\ String.length fingerprint = 40%nat
  /\ Fingerprint keyType (Some g) = Returns ((fingerprint, None), Some g)
  /\ ID keyType (Some g) = Returns ((string_last 16 fingerprint, None), Some g)
  /\ string_last 16 fingerprint = UpperCaseHexString (Some (skipn 12 entry))
  /\ (keyType = AuthenticationKey -> len data = 60 -> entry = skipn 40 (elems data)).
Proof.
  intros Hk Hkey Hlen entry fingerprint.
  destruct data as [l |]; [| unfold len in Hlen; simpl in Hlen; lia].
  cbn [elems] in entry. rewrite len_Some in Hlen.
  assert (Hentry : length entry = 20%nat).
  { subst entry. rewrite length_firstn, length_skipn. lia. }
  assert (Hfp : String.length fingerprint = 40%nat).
  { subst fingerprint. rewrite hex_length, Hentry. reflexivity. }
  assert (Hlast : string_last 16 fingerprint = UpperCaseHexString (Some (skipn 12 entry))).
  { subst fingerprint. unfold string_last. rewrite hex_length, Hentry.
    rewrite <- (firstn_skipn 12 entry) at 1. rewrite hex_app.
    replace (2 * 20 - 16)%nat with (String.length (UpperCaseHexString (Some (firstn 12 entry))))
      by (rewrite hex_length, length_firstn; lia).
    apply string_drop_append. }
  assert (Hget : GetTag keyInformationTag (keyType * 20 + 20) (Some g)
                 = Returns ((Some l, None), Some g)).
  { apply GetTag_present; [exact Hkey | rewrite len_Some; lia]. }
  split; [exact Hentry |]. split; [exact Hfp |]. split; [| split; [| split]].
  - unfold Fingerprint.
    rewrite (bind_returns _ _ (Some g) (Some g) false) by reflexivity.
    rewrite getKeyLen_small by (unfold keyFingerprintLen; lia).
    unfold keyFingerprintLen.
    rewrite (bind_returns _ _ _ _ _ Hget).
    rewrite (bind_returns _ _ (Some g) (Some g) (Some entry)); [reflexivity |].
    apply call_returns. rewrite slice_inside by (rewrite ?len_Some; lia).
    subst entry. do 3 f_equal. lia.
  - unfold ID.
    rewrite (bind_returns _ _ (Some g) (Some g) false) by reflexivity.
    rewrite getKeyLen_small by (unfold keyFingerprintLen; lia).
    unfold keyFingerprintLen.
    rewrite (bind_returns _ _ _ _ _ Hget).
    rewrite Hlast.
    rewrite (bind_returns _ _ (Some g) (Some g) (Some (skipn 12 entry))); [reflexivity |].
    apply call_returns. unfold Int.sub.
    rewrite wrap_inrange by (unfold Int.inrange, Int.min, Int.max; lia).
    rewrite slice_inside by (rewrite ?len_Some; lia).
    subst entry. do 2 f_equal.
    rewrite skipn_firstn_comm, skipn_skipn.
    replace (Z.to_nat (keyType * 20 + 20 - (keyType * 20 + 20 - 8))) with (20 - 12)%nat by lia.
    do 2 f_equal. lia.
  - exact Hlast.
  - intros -> Hsixty. subst entry. rewrite len_Some in Hsixty.
    change (Z.to_nat (AuthenticationKey * 20)) with 40%nat. cbn [elems].
    apply firstn_all2. rewrite length_skipn. lia.
Qed.

(** ** Origin *)

Lemma HasTag_present (g : GpgData) (key : string) (data : bytes) :
  tlvValues g !! key = Some data ->
  HasTag key (Some g) = Returns ((len data, true), Some g).
Proof. intros Hkey. unfold HasTag, bind, field, ret. rewrite Hkey. reflexivity. Qed.

Lemma HasTag_absent (g : GpgData) (key : string) :
  tlvValues g !! key = None ->
  HasTag key (Some g) = Returns ((0, false), Some g).
Proof. intros Hkey. unfold HasTag, bind, field, ret. rewrite Hkey. reflexivity. Qed.

Lemma Origin_miss (g : GpgData) (keyType : KeyType) :
  tlvValues g !! keyOriginAttributesTag = None
  \/ (exists data, tlvValues g !! keyOriginAttributesTag = Some data /\ len data = 0) ->
  Origin keyType (Some g)
  = Returns ((KeyNotPresent,
              Some (Errorf "%w: key type %s not present" ErrKeyNotPresent)), Some g).
Proof.
  intros Hmiss. unfold Origin.
  rewrite (bind_returns _ _ (Some g) (Some g) false) by reflexivity.
  destruct Hmiss as [Habsent | (data & Hkey & Hzero)].
  - rewrite (bind_returns _ _ _ _ _ (HasTag_absent g _ Habsent)). reflexivity.
  - rewrite (bind_returns _ _ _ _ _ (HasTag_present g _ data Hkey)).
    rewrite Hzero. reflexivity.
Qed.

Lemma Origin_reads_byte (g : GpgData) (keyType : KeyType) (data : bytes) (d : byte) :
  0 <= KeyOriginLast < 2 ^ 64 ->
  tlvValues g !! keyOriginAttributesTag = Some data ->
  0 < len data -> KeyTypeSize <= len data ->
  0 <= Offset keyType ->
  nth_error (elems data) (Z.to_nat (Offset keyType)) = Some d ->
  Origin keyType (Some g)
  = if KeyOriginLast <? u8 d
    then Returns ((KeyNotPresent,
                   Some (Errorf "keyValue: [%d] > KeyOriginLast:[%d] for Origin(%s): %w"
                           ErrUnknownKeyOrigin)), Some g)
    else Returns ((u8 d, None), Some g).
Proof.
  intros Hlast Hkey Hpos Hsize Hoff Hd. unfold Origin.
  rewrite (bind_returns _ _ (Some g) (Some g) false) by reflexivity.
  rewrite (bind_returns _ _ _ _ _ (HasTag_present g _ data Hkey)).
  destruct (Z.eqb_spec (len data) 0) as [Hz | _]; [lia |]. cbn [orb negb].
  rewrite (bind_returns _ _ _ _ _ (GetTag_present g _ _ data Hkey Hsize)).
  rewrite (bind_returns _ _ (Some g) (Some g) d)
    by (apply call_returns, index_at; assumption).
  unfold uint. rewrite Z.mod_small by exact Hlast.
  destruct (KeyOriginLast <? u8 d); reflexivity.
Qed.

(** C6.  [Origin] fails with [ErrKeyNotPresent] when the origin tag is
    absent or empty.  When the tag is present, not empty, as long as
    [GetTag] is asked for and holds a byte [d] at the key type's offset, the
    call fails with [ErrUnknownKeyOrigin] exactly when [d] is above
    [KeyOriginLast], and returns [d] as the origin otherwise. *)
Theorem Origin_spec (g : GpgData) (keyType : KeyType) :
  0 <= KeyOriginLast < 2 ^ 64 ->
  (tlvValues g !! keyOriginAttributesTag = None
   \/ (exists data, tlvValues g !! keyOriginAttributesTag = Some data /\ len data = 0) ->
   exists e, Origin keyType (Some g) = Returns ((KeyNotPresent, Some e), Some g)
             /\ errors_Is e ErrKeyNotPresent = true)
  /\ (forall data d,
        tlvValues g !! keyOriginAttributesTag = Some data ->
        0 < len data -> KeyTypeSize <= len data ->
        0 <= Offset keyType ->
        nth_error (elems data) (Z.to_nat (Offset keyType)) = Some d ->
        ((exists v e, Origin keyType (Some g) = Returns ((v, Some e), Some g)
                      /\ errors_Is e ErrUnknownKeyOrigin = true)
         <-> KeyOriginLast < u8 d)
        /\ (u8 d <= KeyOriginLast ->
            Origin keyType (Some g) = Returns ((u8 d, None), Some g))).
Proof.
  intros Hlast. split.
  - intros Hmiss. rewrite (Origin_miss g keyType Hmiss).
    eexists. split; reflexivity.
  - intros data d Hkey Hpos Hsize Hoff Hd.
    rewrite (Origin_reads_byte g keyType data d Hlast Hkey Hpos Hsize Hoff Hd).
    destruct (Z.ltb_spec KeyOriginLast (u8 d)) as [Hgt | Hle].
    + split; [split |].
      * intros _. exact Hgt.
      * intros _. eexists _, _. split; reflexivity.
      * intros Hle. lia.
    + split; [split |].
      * intros (v & e & Heq & _). discriminate Heq.
      * intros Hgt. lia.
      * intros _. reflexivity.
Qed.

(** ** The capability decoder *)

Lemma bind_nil_check {B : Type} (k : bool -> M B) (s : GpgData) :
  bind receiver_is_nil k (Some s) = k false (Some s).
Proof. reflexivity. Qed.

Lemma bind_assign {B : Type} (upd : GpgData -> GpgData) (k : unit -> M B) (s : GpgData) :
  bind (assign upd) k (Some s) = k tt (Some (upd s)).
Proof. reflexivity. Qed.

Lemma bind_call {A B : Type} (o : outcome A) (k : A -> M B) (g : option GpgData) (a : A) :
  o = Returns a -> bind (call o) k g = k a g.
Proof. intros ->. reflexivity. Qed.

Lemma bind_field {A B : Type} (proj : GpgData -> A) (k : A -> M B) (s : GpgData) :
  bind (field proj) k (Some s) = k (proj s) (Some s).
Proof. reflexivity. Qed.

(** One step of a method body: a nil check, an assignment, a field read, or
    a call whose result is known. *)
Ltac step :=
  first [ rewrite bind_nil_check
        | rewrite bind_assign
        | rewrite bind_field
        | erewrite bind_call by eassumption
        | erewrite bind_returns by eassumption ];
  cbv beta iota.

Lemma flag_bit (c : byte) (n : Z) :
  0 <= n < 8 -> (Z.land (u8 c) (2 ^ n) =? 2 ^ n) = Z.testbit (u8 c) n.
Proof.
  intros Hn.
  assert (Hc : n = 0 \/ n = 1 \/ n = 2 \/ n = 3 \/ n = 4 \/ n = 5 \/ n = 6 \/ n = 7) by lia.
  destruct Hc as [-> | [-> | [-> | [-> | [-> | [-> | [-> | ->]]]]]]];
    destruct c; reflexivity.
Qed.

Lemma setSecureMessaging_run (capabilitiesByte smByte : byte) (s : GpgData) :
  setSecureMessaging capabilitiesByte smByte (Some s)
  = if Z.testbit (u8 capabilitiesByte) 7
    then if u8 SecureMessagingAlgorithmLast <? u8 smByte
         then Returns (Some (Sentinel ErrNoSuchAlgorithm), Some s)
         else Returns (None, Some (set_SecureMessaging smByte
                                     (set_SecureMessagingSupported true s)))
    else Returns (None, Some s).
Proof.
  unfold setSecureMessaging. step.
  change Flag.SecureMessaging with (2 ^ 7). rewrite flag_bit by lia.
  destruct (Z.testbit (u8 capabilitiesByte) 7); cbn [negb]; [| reflexivity].
  destruct (u8 SecureMessagingAlgorithmLast <? u8 smByte); reflexivity.
Qed.

Lemma setGetChallengeSupported_run (capabilitiesByte x y : byte) (s : GpgData) :
  setGetChallengeSupported capabilitiesByte (Some [x; y]) (Some s)
  = if Z.testbit (u8 capabilitiesByte) 6
    then Returns (None, Some (set_MaximumChallengeLength
                                (Z.lor (u8 y) (Z.shiftl (u8 x) 8))
                                (set_GetChallengeSupported true s)))
    else Returns (None, Some s).
Proof.
  unfold setGetChallengeSupported. step.
  change Flag.GetChallenge with (2 ^ 6). rewrite flag_bit by lia.
  destruct (Z.testbit (u8 capabilitiesByte) 6); reflexivity.
Qed.

Lemma getByte_at (l : list byte) (i : Z) (v : byte) :
  1 <= i -> len (Some l) < Int.max ->
  nth_error l (Z.to_nat (i - 1)) = Some v ->
  getByteWith1BasedIndexing (Some l) i = Returns (v, None).
Proof.
  intros Hi Hlen Hv.
  assert (Hin : (Z.to_nat (i - 1) < length l)%nat)
    by (apply nth_error_Some; congruence).
  destruct (getByte_ok l i) as (w & Hw & Hnth);
    [rewrite len_Some; lia | exact Hlen |].
  rewrite Hw. congruence.
Qed.


Lemma isSupported_bit (c : byte) (n : Z) :
  0 <= n < 8 -> isSupported c (2 ^ n) = Z.testbit (u8 c) n.
Proof. apply flag_bit. Qed.

Lemma loadExtendedData_absent (g : GpgData) :
  tlvValues g !! extendedCapabilitiesTag = None ->
  loadExtendedData (Some g) = Returns (None, Some (reset_capabilities g)).
Proof.
  intros Hkey. unfold loadExtendedData. do 7 step.
  assert (Hget : GetTag extendedCapabilitiesTag 10 (Some (reset_capabilities g))
                 = Returns ((None, Some (Sentinel ErrNoSuchTag)),
                            Some (reset_capabilities g))).
  { apply GetTag_absent. destruct g. exact Hkey. }
  unfold reset_capabilities in Hget. step. reflexivity.
Qed.

Lemma loadExtendedData_run (g : GpgData) (b1 b2 b3 b4 b5 b6 b7 b8 b9 b10 : byte)
      (rest : list byte) :
  let tag := b1 :: b2 :: b3 :: b4 :: b5 :: b6 :: b7 :: b8 :: b9 :: b10 :: rest in
  tlvValues g !! extendedCapabilitiesTag = Some (Some tag) ->
  len (Some tag) < Int.max ->
  loadExtendedData (Some g)
  = if Z.testbit (u8 b1) 7 && (u8 SecureMessagingAlgorithmLast <? u8 b2)
    then Returns (Some (Errorf "loadExtendedData(setSecureMessaging) failed: %w"
                          ErrNoSuchAlgorithm),
                  Some (reset_capabilities g))
    else Returns (None, Some (decoded b1 b2 b3 b4 b5 b6 b7 b8 b9 b10 g)).
Proof.
  intros tag Hkey Hfit.
  assert (Hlen : 10 <= len (Some tag)).
  { rewrite len_Some. subst tag. cbn [length]. lia. }
  assert (Hget : GetTag extendedCapabilitiesTag 10 (Some (reset_capabilities g))
                 = Returns ((Some tag, None), Some (reset_capabilities g))).
  { apply GetTag_present; [destruct g; exact Hkey | exact Hlen]. }
  assert (H1 : getByteWith1BasedIndexing (Some tag) 1 = Returns (b1, None))
    by (apply getByte_at; [lia | exact Hfit | reflexivity]).
  assert (H2 : getByteWith1BasedIndexing (Some tag) 2 = Returns (b2, None))
    by (apply getByte_at; [lia | exact Hfit | reflexivity]).
  assert (H9 : getByteWith1BasedIndexing (Some tag) 9 = Returns (b9, None))
    by (apply getByte_at; [lia | exact Hfit | reflexivity]).
  assert (H10 : getByteWith1BasedIndexing (Some tag) 10 = Returns (b10, None))
    by (apply getByte_at; [lia | exact Hfit | reflexivity]).
  assert (H34 : getBytesWith1BasedIndexing (Some tag) 3 4 = Returns (Some [b3; b4], None))
    by (rewrite getBytes_ok by lia; reflexivity).
  assert (H56 : getBytesWith1BasedIndexing (Some tag) 5 6 = Returns (Some [b5; b6], None))
    by (rewrite getBytes_ok by lia; reflexivity).
  assert (H78 : getBytesWith1BasedIndexing (Some tag) 7 8 = Returns (Some [b7; b8], None))
    by (rewrite getBytes_ok by lia; reflexivity).
  assert (U56 : BigEndian_Uint16 (Some [b5; b6])
                = Returns (Z.lor (u8 b6) (Z.shiftl (u8 b5) 8))) by reflexivity.
  assert (U78 : BigEndian_Uint16 (Some [b7; b8])
                = Returns (Z.lor (u8 b8) (Z.shiftl (u8 b7) 8))) by reflexivity.
  unfold loadExtendedData. do 7 step.
  unfold reset_capabilities in Hget. step.
  fold (reset_capabilities g). clearbody tag.
  do 2 step.
  change Flag.KeyImport with (2 ^ 5).
  change Flag.PWStatusChangeable with (2 ^ 4).
  change Flag.PrivateUseDOs with (2 ^ 3).
  change Flag.AlgorithmAttributesChangeable with (2 ^ 2).
  change Flag.PSODECENCwithAES with (2 ^ 1).
  change Flag.KDFSupported with (2 ^ 0).
  change (isSupported ?b 1) with (isSupported b (2 ^ 0)).
  unfold decoded.
  destruct (Z.testbit (u8 b1) 7) eqn:Hsm;
    destruct (u8 SecureMessagingAlgorithmLast <? u8 b2) eqn:Halg;
    destruct (Z.testbit (u8 b1) 6) eqn:Hgc;
    cbn [andb];
    (erewrite bind_returns
      by (rewrite setSecureMessaging_run, Hsm, ?Halg; reflexivity));
    cbv beta iota; try reflexivity;
    step;
    (erewrite bind_returns
      by (rewrite setGetChallengeSupported_run, Hgc; reflexivity));
    cbv beta iota;
    repeat step;
    rewrite !isSupported_bit by lia;
    reflexivity.
Qed.

(** C4.  With a tag of ten bytes or more whose first two bytes are [b1] and
    [b2], the decoder returns without panicking.  When bit 8 of [b1] (the
    secure-messaging bit) is set, it fails, with an error that wraps
    [ErrNoSuchAlgorithm], exactly when [b2] is above
    [SecureMessagingAlgorithmLast], and otherwise raises
    [SecureMessagingSupported] and stores [b2] in [SecureMessaging].  When
    the bit is clear there is no error, [SecureMessagingSupported] keeps the
    value it had (so it stays false) and [SecureMessaging] is the default
    [NoSecureMessaging], whatever [b2] is. *)
Theorem secure_messaging_gating (g : GpgData) (tag : bytes) (b1 b2 : byte) :
  tlvValues g !! extendedCapabilitiesTag = Some tag ->
  10 <= len tag < Int.max ->
  nth_error (elems tag) 0 = Some b1 ->
  nth_error (elems tag) 1 = Some b2 ->
  exists err g',
    loadExtendedData (Some g) = Returns (err, Some g')
    /\ (Z.testbit (u8 b1) 7 = true ->
        ((exists e, err = Some e /\ errors_Is e ErrNoSuchAlgorithm = true)
         <-> u8 SecureMessagingAlgorithmLast < u8 b2)
        /\ (err <> None <-> u8 SecureMessagingAlgorithmLast < u8 b2)
        /\ (u8 b2 <= u8 SecureMessagingAlgorithmLast ->
            SecureMessagingSupported g' = true /\ SecureMessaging g' = b2))
    /\ (Z.testbit (u8 b1) 7 = false ->
        err = None
        /\ SecureMessagingSupported g' = SecureMessagingSupported g
        /\ SecureMessaging g' = NoSecureMessaging).
Proof.
  intros Hkey [Hlen Hfit] Hb1 Hb2.
  destruct tag as [l |]; [| unfold len in Hlen; simpl in Hlen; lia].
  rewrite len_Some in Hlen.
  destruct l as [| c1 [| c2 [| b3 [| b4 [| b5 [| b6 [| b7 [| b8 [| b9 [| b10 rest]]]]]]]]]];
    try (cbn [length] in Hlen; lia).
  cbn [elems nth_error] in Hb1, Hb2.
  injection Hb1 as ->. injection Hb2 as ->.
  rewrite (loadExtendedData_run g b1 b2 b3 b4 b5 b6 b7 b8 b9 b10 rest Hkey Hfit).
  destruct (Z.testbit (u8 b1) 7) eqn:Hsm; cbn [andb].
  - destruct (Z.ltb_spec (u8 SecureMessagingAlgorithmLast) (u8 b2)) as [Hgt | Hle].
    + eexists _, _. split; [reflexivity |]. split; [| discriminate].
      intros _. split; [| split].
      * split; [intros _; exact Hgt |].
        intros _. eexists. split; reflexivity.
      * split; [intros _; exact Hgt | discriminate].
      * intros Hle. lia.
    + eexists _, _. split; [reflexivity |]. split; [| discriminate].
      intros _. split; [| split].
      * split; [intros (e & He & _); discriminate He | lia].
      * split; [congruence | lia].
      * intros _. unfold decoded. rewrite Hsm.
        destruct g. destruct (Z.testbit (u8 b1) 6); split; reflexivity.
  - eexists _, _. split; [reflexivity |]. split; [discriminate |].
    intros _. unfold decoded. rewrite Hsm.
    destruct g. destruct (Z.testbit (u8 b1) 6); repeat split; reflexivity.
Qed.

(** C5.  When the extended-capabilities tag is absent, [loadExtendedData]
    returns no error on any record.  On a freshly built record every
    capability field is then at its default: the booleans false, the three
    maximum lengths zero, the secure-messaging algorithm
    [NoSecureMessaging]; and nothing else has changed. *)
Theorem absent_tag_keeps_defaults (reader : string) (dbg : bool) (tlv : gmap string bytes) :
  tlv !! extendedCapabilitiesTag = None ->
  (forall g, tlvValues g = tlv ->
             exists g', loadExtendedData (Some g) = Returns (None, Some g'))
  /\ exists g',
      loadExtendedData (Some (freshGpgData reader dbg tlv)) = Returns (None, Some g')
      /\ g' = set_SecureMessaging NoSecureMessaging (freshGpgData reader dbg tlv)
      /\ SecureMessagingSupported g' = false
      /\ SecureMessaging g' = NoSecureMessaging
      /\ GetChallengeSupported g' = false
      /\ MaximumChallengeLength g' = 0
      /\ KeyImportSupported g' = false
      /\ PWStatusChangeable g' = false
      /\ PrivateUseDOsSupported g' = false
      /\ AlgorithmAttributesChangeable g' = false
      /\ SupportsPSODecryptionEncryptionWithAES g' = false
      /\ KDFSupported g' = false
      /\ PinBlock2Supported g' = false
      /\ MSECommandSupported g' = false
      /\ MaximumCardholderCertificatesLength g' = 0
      /\ MaximumSpecialDOsLength g' = 0.
Proof.
  intros Hkey. split.
  - intros g Hg. rewrite <- Hg in Hkey.
    rewrite (loadExtendedData_absent g Hkey). eexists. reflexivity.
  - rewrite (loadExtendedData_absent (freshGpgData reader dbg tlv) Hkey).
    eexists. split; [reflexivity |]. repeat split.
Qed.

(** ** The construction pass *)

(** C2, as the code runs it.  An application identifier of exactly 13 bytes
    passes the length check of [update], and the fourth index expression of
    the serial number, [aid[13]], then panics. *)
Theorem update_panics_on_13_byte_identifier (g : GpgData) (aid : bytes) :
  tlvValues g !! "6E.4F" = Some aid ->
  len aid = 13 ->
  update (Some g) = Panics IndexOutOfRange.
Proof.
  intros Hkey Hlen.
  assert (Hget : GetTag "6E.4F" 13 (Some g) = Returns ((aid, None), Some g))
    by (apply GetTag_present; [exact Hkey | lia]).
  destruct (index_inside aid 10) as (a10 & H10 & _); [lia |].
  destruct (index_inside aid 11) as (a11 & H11 & _); [lia |].
  destruct (index_inside aid 12) as (a12 & H12 & _); [lia |].
  assert (H13 : index aid 13 = Panics IndexOutOfRange)
    by (apply index_outside; lia).
  unfold update. do 4 step.
  apply bind_panics, call_panics, H13.
Qed.

Lemma ParseCardHolderName_returns (name : bytes) :
  len name <= Int.max -> exists s, ParseCardHolderName name = Returns s.
Proof.
  intros Hfit.
  destruct (Z.eq_dec (len name) 0) as [Hz | Hnz].
  - eexists. apply ParseCardHolderName_empty, Hz.
  - pose proof (len_nonneg name) as Hnn.
    destruct (strings_Index_from_spec "<<" (string_of_list_byte (elems name)) 0)
      as [[_ Hno] | (n & _ & Hocc & Hmin)].
    + eexists. apply ParseCardHolderName_no_marker; [lia | exact Hno].
    + destruct Hocc as (pre & post & Hs & Hn). subst n. rewrite Hs in Hmin.
      eexists. apply (ParseCardHolderName_marker name pre post Hfit Hs Hmin).
Qed.

(** With an identifier of 14 bytes or more [update] derives the identity
    fields as section 4.4 of the specification lists them and goes on to the
    capability decoder. *)
Lemma update_reaches_decoder (g : GpgData)
      (a0 a1 a2 a3 a4 a5 a6 a7 a8 a9 a10 a11 a12 a13 : byte) (rest : list byte) :
  let aid := a0 :: a1 :: a2 :: a3 :: a4 :: a5 :: a6 :: a7 :: a8 :: a9 :: a10 :: a11
                :: a12 :: a13 :: rest in
  tlvValues g !! "6E.4F" = Some (Some aid) ->
  (forall data, tlvValues g !! "65.5B" = Some data -> len data <= Int.max) ->
  exists cardHolder,
    ParseCardHolderName (match tlvValues g !! "65.5B" with
                         | Some data => data
                         | None => None
                         end) = Returns cardHolder
    /\ update (Some g)
       = bind loadExtendedData
           (fun err => match err with
                       | Some e => ret (Some e)
                       | None => ret None
                       end)
           (Some (identified a0 a1 a2 a3 a4 a5 a6 a7 a8 a9 a10 a11 a12 a13 cardHolder g)).
Proof.
  intros aid Hkey Hname.
  assert (Hlen : 14 <= len (Some aid)).
  { rewrite len_Some. subst aid. cbn [length]. lia. }
  destruct (ParseCardHolderName_returns
              (match tlvValues g !! "65.5B" with Some data => data | None => None end))
    as [cardHolder Hparse].
  { destruct (tlvValues g !! "65.5B") as [data |] eqn:Hch; [apply (Hname data eq_refl) |].
    unfold len, Int.max. simpl. lia. }
  exists cardHolder. split; [exact Hparse |].
  assert (Hget : GetTag "6E.4F" 13 (Some g) = Returns ((Some aid, None), Some g))
    by (apply GetTag_present; [exact Hkey | lia]).
  assert (I5 : index (Some aid) 5 = Returns a5) by reflexivity.
  assert (I6 : index (Some aid) 6 = Returns a6) by reflexivity.
  assert (I7 : index (Some aid) 7 = Returns a7) by reflexivity.
  assert (I8 : index (Some aid) 8 = Returns a8) by reflexivity.
  assert (I9 : index (Some aid) 9 = Returns a9) by reflexivity.
  assert (I10 : index (Some aid) 10 = Returns a10) by reflexivity.
  assert (I11 : index (Some aid) 11 = Returns a11) by reflexivity.
  assert (I12 : index (Some aid) 12 = Returns a12) by reflexivity.
  assert (I13 : index (Some aid) 13 = Returns a13) by reflexivity.
  assert (S1 : slice (Some aid) 10 14 = Returns (Some [a10; a11; a12; a13]))
    by (rewrite slice_inside by lia; reflexivity).
  assert (S2 : slice (Some aid) 0 5 = Returns (Some [a0; a1; a2; a3; a4]))
    by (rewrite slice_inside by lia; reflexivity).
  assert (S3 : slice (Some aid) 5 6 = Returns (Some [a5]))
    by (rewrite slice_inside by lia; reflexivity).
  assert (U : BigEndian_Uint32 (Some [a10; a11; a12; a13])
              = Returns (Z.lor (Z.lor (Z.lor (u8 a13) (Z.shiftl (u8 a12) 8))
                                  (Z.shiftl (u8 a11) 16)) (Z.shiftl (u8 a10) 24)))
    by reflexivity.
  unfold update. clearbody aid.
  repeat step.
  match goal with
  | |- bind (GetTag "65.5B" 0) _ (Some ?s) = _ =>
      assert (Hch : GetTag "65.5B" 0 (Some s)
                    = Returns ((match tlvValues g !! "65.5B" with
                                | Some data => data
                                | None => None
                                end,
                                match tlvValues g !! "65.5B" with
                                | Some _ => None
                                | None => Some (Sentinel ErrNoSuchTag)
                                end), Some s))
  end.
  { destruct (tlvValues g !! "65.5B") as [data |] eqn:Hch.
    - apply GetTag_present; [destruct g; exact Hch | apply len_nonneg].
    - apply GetTag_absent. destruct g; exact Hch. }
  repeat step.
  destruct (u8 a8 =? 0) eqn:Hzero; cbn [andb].
  - erewrite bind_returns
      by (erewrite bind_call by eassumption; reflexivity).
    cbv beta iota. repeat step.
    unfold identified. rewrite Hzero. destruct g. reflexivity.
  - erewrite bind_returns by reflexivity.
    cbv beta iota. repeat step.
    unfold identified. rewrite Hzero. destruct g. reflexivity.
Qed.

(** * Further properties of the code *)

(** ** Big-endian words *)

Lemma land_shiftl_low (x y n : Z) :
  0 <= n -> 0 <= x < 2 ^ n -> Z.land x (Z.shiftl y n) = 0.
Proof.
  intros Hn Hx. apply Z.bits_inj'. intros i Hi.
  rewrite Z.land_spec, Z.bits_0.
  destruct (Z.lt_ge_cases i n) as [Hlow | Hhigh].
  - rewrite Z.shiftl_spec_low by exact Hlow. apply andb_false_r.
  - rewrite <- (Z.mod_small x (2 ^ n)) by exact Hx.
    rewrite Z.mod_pow2_bits_high by lia. reflexivity.
Qed.

Lemma lor_shiftl_add (x y n : Z) :
  0 <= n -> 0 <= x < 2 ^ n -> Z.lor x (Z.shiftl y n) = x + y * 2 ^ n.
Proof.
  intros Hn Hx.
  rewrite <- Z.lxor_lor by (apply land_shiftl_low; assumption).
  rewrite <- Z.add_nocarry_lxor by (apply land_shiftl_low; assumption).
  rewrite Z.shiftl_mul_pow2 by exact Hn. reflexivity.
Qed.

Lemma Uint16_value (x y : byte) :
  Z.lor (u8 y) (Z.shiftl (u8 x) 8) = u8 x * 256 + u8 y.
Proof.
  pose proof (u8_range y). rewrite lor_shiftl_add by lia. lia.
Qed.

Lemma Uint32_value (b0 b1 b2 b3 : byte) :
  Z.lor (Z.lor (Z.lor (u8 b3) (Z.shiftl (u8 b2) 8)) (Z.shiftl (u8 b1) 16))
    (Z.shiftl (u8 b0) 24)
  = u8 b0 * 2 ^ 24 + u8 b1 * 2 ^ 16 + u8 b2 * 2 ^ 8 + u8 b3.
Proof.
  pose proof (u8_range b0). pose proof (u8_range b1).
  pose proof (u8_range b2). pose proof (u8_range b3).
  rewrite (lor_shiftl_add (u8 b3)) by lia.
  rewrite (lor_shiftl_add (u8 b3 + u8 b2 * 2 ^ 8)) by lia.
  rewrite lor_shiftl_add by lia. lia.
Qed.

(** ** Date *)

Lemma Date_entry (g : GpgData) (keyType : KeyType) (l : list byte)
      (b0 b1 b2 b3 : byte) :
  0 <= keyType <= 3 ->
  tlvValues g !! keyDateTag = Some (Some l) ->
  (keyType + 1) * 4 <= len (Some l) ->
  firstn 4 (skipn (Z.to_nat (keyType * 4)) l) = [b0; b1; b2; b3] ->
  Date keyType (Some g)
  = Returns ((TimeUnix (u8 b0 * 2 ^ 24 + u8 b1 * 2 ^ 16 + u8 b2 * 2 ^ 8 + u8 b3) 0,
              None), Some g).
Proof.
  intros Hk Hkey Hlen Hentry.
  assert (Hget : GetTag keyDateTag (keyType * 4 + 4) (Some g)
                 = Returns ((Some l, None), Some g))
    by (apply GetTag_present; [exact Hkey | lia]).
  assert (Hslice : slice (Some l) (keyType * 4) (keyType * 4 + 4)
                   = Returns (Some [b0; b1; b2; b3])).
  { rewrite slice_inside by lia. rewrite <- Hentry. do 3 f_equal. lia. }
  assert (Hword : slice (Some [b0; b1; b2; b3]) 0 4 = Returns (Some [b0; b1; b2; b3]))
    by reflexivity.
  assert (Hint : BigEndian_Uint32 (Some [b0; b1; b2; b3])
                 = Returns (u8 b0 * 2 ^ 24 + u8 b1 * 2 ^ 16 + u8 b2 * 2 ^ 8 + u8 b3)).
  { rewrite <- Uint32_value. reflexivity. }
  unfold Date. step.
  rewrite getKeyLen_small by (unfold keyDateLen; lia).
  unfold keyDateLen. repeat step. reflexivity.
Qed.

(** X1.  For a key type of ordinal 0 to 3 and a date tag that reaches the
    end of that key's entry, [Date] returns, without error and without
    touching the record, the time whose seconds are the big-endian 32-bit
    number of the four bytes at offset [4 * k]; the seconds lie in
    [0, 2^32).  In particular an all-zero entry gives the epoch itself. *)
Theorem Date_reads_entry (g : GpgData) (keyType : KeyType) (data : bytes)
        (b0 b1 b2 b3 : byte) :
  0 <= keyType <= 3 ->
  tlvValues g !! keyDateTag = Some data ->
  (keyType + 1) * 4 <= len data ->
  firstn 4 (skipn (Z.to_nat (keyType * 4)) (elems data)) = [b0; b1; b2; b3] ->
  let seconds := u8 b0 * 2 ^ 24 + u8 b1 * 2 ^ 16 + u8 b2 * 2 ^ 8 + u8 b3 in
  Date keyType (Some g) = Returns ((TimeUnix seconds 0, None), Some g)
  /\ 0 <= seconds < 2 ^ 32
  /\ (b0 = x00 -> b1 = x00 -> b2 = x00 -> b3 = x00 -> seconds = 0).
Proof.
  intros Hk Hkey Hlen Hentry seconds.
  destruct data as [l |]; [| unfold len in Hlen; simpl in Hlen; lia].
  cbn [elems] in Hentry.
  split; [| split].
  - apply (Date_entry g keyType l b0 b1 b2 b3 Hk Hkey Hlen Hentry).
  - subst seconds.
    pose proof (u8_range b0). pose proof (u8_range b1).
    pose proof (u8_range b2). pose proof (u8_range b3). lia.
  - intros -> -> -> ->. reflexivity.
Qed.

(** ** The 1-based accessors, together *)

(** X2.  For a range [(start, end)] inside a block, with
    [1 <= start <= end + 1], the range accessor returns [end - start + 1]
    bytes, and its byte number [k] is the one the single-byte accessor
    returns for position [start + k].  The range [(1, N)] is the whole
    block. *)
Theorem range_accessor_agrees_with_byte_accessor (l : list byte) (start end_ : Z) :
  len (Some l) < Int.max ->
  1 <= start -> start <= end_ + 1 -> start <= len (Some l) -> end_ <= len (Some l) ->
  exists r,
    getBytesWith1BasedIndexing (Some l) start end_ = Returns (Some r, None)
    /\ Z.of_nat (length r) = end_ - start + 1
    /\ (forall k, 0 <= k < end_ - start + 1 ->
          exists v, getByteWith1BasedIndexing (Some l) (start + k) = Returns (v, None)
                    /\ nth_error r (Z.to_nat k) = Some v)
    /\ (start = 1 -> end_ = len (Some l) -> r = l).
Proof.
  intros Hfit Hs Hse Hsl He.
  eexists. split; [apply getBytes_ok; assumption |].
  rewrite len_Some in *.
  split; [| split].
  - rewrite length_firstn, length_skipn. lia.
  - intros k Hk.
    destruct (getByte_ok l (start + k)) as (v & Hv & Hnth);
      [rewrite len_Some; lia | rewrite len_Some; exact Hfit |].
    exists v. split; [exact Hv |].
    rewrite nth_error_firstn.
    destruct (Nat.ltb_spec (Z.to_nat k) (Z.to_nat (end_ - (start - 1)))) as [_ | Hge];
      [| lia].
    rewrite nth_error_skipn. rewrite <- Hnth. f_equal. lia.
  - intros -> ->. change (Z.to_nat (1 - 1)) with 0%nat. cbn [skipn].
    apply firstn_all2. lia.
Qed.

(** ** Capability bits *)

(** X3.  [isSupported] holds exactly when every bit of the mask is set in
    the capability byte. *)
Theorem isSupported_all_mask_bits (c : byte) (flagValue : Z) :
  isSupported c flagValue = true
  <-> (forall n, 0 <= n -> Z.testbit flagValue n = true -> Z.testbit (u8 c) n = true).
Proof.
  unfold isSupported. rewrite Z.eqb_eq. split.
  - intros Heq n Hn Hf. rewrite <- Heq in Hf.
    rewrite Z.land_spec in Hf. apply andb_true_iff in Hf. apply Hf.
  - intros Hbits. apply Z.bits_inj'. intros n Hn. rewrite Z.land_spec.
    destruct (Z.testbit flagValue n) eqn:Hf.
    + rewrite (Hbits n Hn Hf). reflexivity.
    + apply andb_false_r.
Qed.

(** X4.  [setGetChallengeSupported]: with bit 7 of the capability byte
    clear it returns nil and leaves the record alone, whatever the
    challenge bytes are; with the bit set and a challenge that is not two
    bytes long it returns [ErrTooShort] and leaves the record alone; with
    the bit set and two bytes it raises [GetChallengeSupported] and stores
    their big-endian value. *)
Theorem setGetChallengeSupported_spec (capabilitiesByte : byte) (challenge : bytes)
        (s : GpgData) :
  (Z.testbit (u8 capabilitiesByte) 6 = false ->
   setGetChallengeSupported capabilitiesByte challenge (Some s) = Returns (None, Some s))
  /\ (Z.testbit (u8 capabilitiesByte) 6 = true -> len challenge <> 2 ->
      setGetChallengeSupported capabilitiesByte challenge (Some s)
      = Returns (Some (Sentinel ErrTooShort), Some s))
  /\ (forall x y,
        Z.testbit (u8 capabilitiesByte) 6 = true -> challenge = Some [x; y] ->
        setGetChallengeSupported capabilitiesByte challenge (Some s)
        = Returns (None, Some (set_MaximumChallengeLength (u8 x * 256 + u8 y)
                                 (set_GetChallengeSupported true s)))).
Proof.
  split; [| split].
  - intros Hbit. unfold setGetChallengeSupported. step.
    change Flag.GetChallenge with (2 ^ 6). rewrite flag_bit by lia.
    rewrite Hbit. reflexivity.
  - intros Hbit Hlen. unfold setGetChallengeSupported. step.
    change Flag.GetChallenge with (2 ^ 6). rewrite flag_bit by lia.
    rewrite Hbit. cbn [negb].
    destruct (Z.eqb_spec (len challenge) 2) as [Heq | _]; [contradiction |].
    reflexivity.
  - intros x y Hbit ->. rewrite setGetChallengeSupported_run, Hbit, Uint16_value.
    reflexivity.
Qed.

(** ** The capability decoder, field by field *)

Lemma loadExtendedData_short (g : GpgData) (tag : bytes) :
  tlvValues g !! extendedCapabilitiesTag = Some tag ->
  len tag < 10 ->
  loadExtendedData (Some g)
  = Returns (Some (Errorf "loadExtendedData failed: %w" ErrTooShort),
             Some (reset_capabilities g)).
Proof.
  intros Hkey Hlen. unfold loadExtendedData. do 7 step.
  assert (Hget : GetTag extendedCapabilitiesTag 10 (Some (reset_capabilities g))
                 = Returns ((None, Some (Sentinel ErrTooShort)),
                            Some (reset_capabilities g))).
  { apply (GetTag_short _ _ _ tag); [destruct g; exact Hkey | exact Hlen]. }
  unfold reset_capabilities in Hget. step. reflexivity.
Qed.

Lemma ten_bytes (l : list byte) :
  10 <= len (Some l) ->
  exists b1 b2 b3 b4 b5 b6 b7 b8 b9 b10 rest,
    l = b1 :: b2 :: b3 :: b4 :: b5 :: b6 :: b7 :: b8 :: b9 :: b10 :: rest.
Proof.
  rewrite len_Some. intros Hlen.
  destruct l as [| b1 [| b2 [| b3 [| b4 [| b5 [| b6 [| b7 [| b8 [| b9 [| b10 rest]]]]]]]]]];
    try (cbn [length] in Hlen; lia).
  repeat eexists.
Qed.

(** X5.  A tag of ten bytes or more whose secure-messaging byte is accepted
    is decoded without error into: the secure-messaging and get-challenge
    flags raised by bits 8 and 7 of byte 1 (and otherwise left as they
    were), the algorithm from byte 2 and the challenge length from bytes
    3-4 when their bit is set, the six other flags from bits 6 to 1 of
    byte 1, the two maximum lengths from bytes 5-6 and 7-8 (big-endian), and
    the last two flags from the lowest bit of bytes 9 and 10. *)
Theorem loadExtendedData_decodes (g : GpgData)
        (b1 b2 b3 b4 b5 b6 b7 b8 b9 b10 : byte) (rest : list byte) :
  let tag := b1 :: b2 :: b3 :: b4 :: b5 :: b6 :: b7 :: b8 :: b9 :: b10 :: rest in
  tlvValues g !! extendedCapabilitiesTag = Some (Some tag) ->
  len (Some tag) < Int.max ->
  Z.testbit (u8 b1) 7 = false \/ u8 b2 <= u8 SecureMessagingAlgorithmLast ->
  exists g',
    loadExtendedData (Some g) = Returns (None, Some g')
    /\ SecureMessagingSupported g' = SecureMessagingSupported g || Z.testbit (u8 b1) 7
    /\ SecureMessaging g' = (if Z.testbit (u8 b1) 7 then b2 else NoSecureMessaging)
    /\ GetChallengeSupported g' = GetChallengeSupported g || Z.testbit (u8 b1) 6
    /\ MaximumChallengeLength g'
       = (if Z.testbit (u8 b1) 6 then u8 b3 * 256 + u8 b4 else 0)
    /\ KeyImportSupported g' = Z.testbit (u8 b1) 5
    /\ PWStatusChangeable g' = Z.testbit (u8 b1) 4
    /\ PrivateUseDOsSupported g' = Z.testbit (u8 b1) 3
    /\ AlgorithmAttributesChangeable g' = Z.testbit (u8 b1) 2
    /\ SupportsPSODecryptionEncryptionWithAES g' = Z.testbit (u8 b1) 1
    /\ KDFSupported g' = Z.testbit (u8 b1) 0
    /\ MaximumCardholderCertificatesLength g' = u8 b5 * 256 + u8 b6
    /\ MaximumSpecialDOsLength g' = u8 b7 * 256 + u8 b8
    /\ PinBlock2Supported g' = Z.testbit (u8 b9) 0
    /\ MSECommandSupported g' = Z.testbit (u8 b10) 0.
Proof.
  intros tag Hkey Hfit Hok.
  rewrite (loadExtendedData_run g b1 b2 b3 b4 b5 b6 b7 b8 b9 b10 rest Hkey Hfit).
  assert (Haccept : Z.testbit (u8 b1) 7
                    && (u8 SecureMessagingAlgorithmLast <? u8 b2) = false).
  { destruct Hok as [-> | Hle]; [reflexivity |].
    destruct (Z.ltb_spec (u8 SecureMessagingAlgorithmLast) (u8 b2)); [lia |].
    apply andb_false_r. }
  rewrite Haccept. eexists. split; [reflexivity |].
  unfold decoded. rewrite <- !Uint16_value.
  destruct g, (Z.testbit (u8 b1) 7), (Z.testbit (u8 b1) 6);
    cbn; rewrite ?orb_true_r, ?orb_false_r; repeat split; reflexivity.
Qed.

(** The three ways the decoder can end on a record whose capability tag, if
    present, has a length that fits an [int]. *)
Lemma loadExtendedData_cases (g : GpgData) :
  (forall tag, tlvValues g !! extendedCapabilitiesTag = Some tag -> len tag < Int.max) ->
  (loadExtendedData (Some g) = Returns (None, Some (reset_capabilities g)))
  \/ (exists e, loadExtendedData (Some g) = Returns (Some e, Some (reset_capabilities g)))
  \/ (exists b1 b2 b3 b4 b5 b6 b7 b8 b9 b10,
        loadExtendedData (Some g)
        = Returns (None, Some (decoded b1 b2 b3 b4 b5 b6 b7 b8 b9 b10 g))).
Proof.
  intros Hfit.
  destruct (tlvValues g !! extendedCapabilitiesTag) as [tag |] eqn:Hkey.
  - specialize (Hfit tag eq_refl).
    destruct (Z.lt_ge_cases (len tag) 10) as [Hshort | Hlong].
    + right. left. eexists. apply (loadExtendedData_short g tag Hkey Hshort).
    + destruct tag as [l |]; [| unfold len in Hlong; simpl in Hlong; lia].
      destruct (ten_bytes l Hlong)
        as (b1 & b2 & b3 & b4 & b5 & b6 & b7 & b8 & b9 & b10 & rest & ->).
      rewrite (loadExtendedData_run g b1 b2 b3 b4 b5 b6 b7 b8 b9 b10 rest Hkey Hfit).
      destruct (Z.testbit (u8 b1) 7 && (u8 SecureMessagingAlgorithmLast <? u8 b2)).
      * right. left. eexists. reflexivity.
      * right. right. exists b1, b2, b3, b4, b5, b6, b7, b8, b9, b10. reflexivity.
  - left. apply loadExtendedData_absent, Hkey.
Qed.

Lemma decoder_keeps_identity (g : GpgData) :
  (forall tag, tlvValues g !! extendedCapabilitiesTag = Some tag -> len tag < Int.max) ->
  exists err g',
    loadExtendedData (Some g) = Returns (err, Some g')
    /\ Reader g' = Reader g /\ Serial g' = Serial g /\ SerialInt g' = SerialInt g
    /\ LongName g' = LongName g /\ CardHolder g' = CardHolder g /\ Rid g' = Rid g
    /\ Application g' = Application g /\ Version g' = Version g
    /\ Manufacturer g' = Manufacturer g /\ tlvValues g' = tlvValues g.
Proof.
  intros Hfit.
  destruct (loadExtendedData_cases g Hfit)
    as [-> | [[e ->] | (b1 & b2 & b3 & b4 & b5 & b6 & b7 & b8 & b9 & b10 & ->)]].
  - eexists _, _. split; [reflexivity |]. destruct g. cbn. repeat split.
  - eexists _, _. split; [reflexivity |]. destruct g. cbn. repeat split.
  - eexists _, _. split; [reflexivity |]. unfold decoded.
    destruct g, (Z.testbit (u8 b1) 7), (Z.testbit (u8 b1) 6); cbn; repeat split.
Qed.

(** X6.  Whatever the tag map holds, the decoder returns (it does not
    panic), leaves the identity fields, the reader name, the debug switch
    and the tag map as they were, and never lowers
    [SecureMessagingSupported] or [GetChallengeSupported]: a flag that was
    raised before the call is still raised after it, also when the tag no
    longer has its bit. *)
Theorem loadExtendedData_frame (g : GpgData) :
  (forall tag, tlvValues g !! extendedCapabilitiesTag = Some tag -> len tag < Int.max) ->
  exists err g',
    loadExtendedData (Some g) = Returns (err, Some g')
    /\ Reader g' = Reader g /\ Serial g' = Serial g /\ SerialInt g' = SerialInt g
    /\ LongName g' = LongName g /\ CardHolder g' = CardHolder g /\ Rid g' = Rid g
    /\ Application g' = Application g /\ Version g' = Version g
    /\ Manufacturer g' = Manufacturer g /\ AppletVersion g' = AppletVersion g
    /\ debug g' = debug g /\ tlvValues g' = tlvValues g
    /\ (SecureMessagingSupported g = true -> SecureMessagingSupported g' = true)
    /\ (GetChallengeSupported g = true -> GetChallengeSupported g' = true).
Proof.
  intros Hfit.
  destruct (loadExtendedData_cases g Hfit)
    as [-> | [[e ->] | (b1 & b2 & b3 & b4 & b5 & b6 & b7 & b8 & b9 & b10 & ->)]].
  - eexists _, _. split; [reflexivity |]. destruct g. cbn. repeat split; auto.
  - eexists _, _. split; [reflexivity |]. destruct g. cbn. repeat split; auto.
  - eexists _, _. split; [reflexivity |]. unfold decoded.
    destruct g, (Z.testbit (u8 b1) 7), (Z.testbit (u8 b1) 6); cbn; repeat split; auto.
Qed.

(** X7.  Decoding is idempotent: running the decoder again on the record
    it produced returns the same error and the same record. *)
Theorem loadExtendedData_idempotent (g : GpgData) :
  (forall tag, tlvValues g !! extendedCapabilitiesTag = Some tag -> len tag < Int.max) ->
  exists err g',
    loadExtendedData (Some g) = Returns (err, Some g')
    /\ loadExtendedData (Some g') = Returns (err, Some g').
Proof.
  intros Hfit.
  destruct (tlvValues g !! extendedCapabilitiesTag) as [tag |] eqn:Hkey.
  - specialize (Hfit tag eq_refl).
    destruct (Z.lt_ge_cases (len tag) 10) as [Hshort | Hlong].
    + eexists _, _. split; [apply (loadExtendedData_short g tag Hkey Hshort) |].
      rewrite (loadExtendedData_short (reset_capabilities g) tag);
        [| destruct g; exact Hkey | exact Hshort].
      destruct g. reflexivity.
    + destruct tag as [l |]; [| unfold len in Hlong; simpl in Hlong; lia].
      destruct (ten_bytes l Hlong)
        as (b1 & b2 & b3 & b4 & b5 & b6 & b7 & b8 & b9 & b10 & rest & ->).
      rewrite (loadExtendedData_run g b1 b2 b3 b4 b5 b6 b7 b8 b9 b10 rest Hkey Hfit).
      destruct (Z.testbit (u8 b1) 7 && (u8 SecureMessagingAlgorithmLast <? u8 b2))
        eqn:Hreject.
      * eexists _, _. split; [reflexivity |].
        rewrite (loadExtendedData_run (reset_capabilities g)
                   b1 b2 b3 b4 b5 b6 b7 b8 b9 b10 rest);
          [| destruct g; exact Hkey | exact Hfit].
        rewrite Hreject. destruct g. reflexivity.
      * eexists _, _. split; [reflexivity |].
        rewrite (loadExtendedData_run (decoded b1 b2 b3 b4 b5 b6 b7 b8 b9 b10 g)
                   b1 b2 b3 b4 b5 b6 b7 b8 b9 b10 rest);
          [| unfold decoded;
             destruct g, (Z.testbit (u8 b1) 7), (Z.testbit (u8 b1) 6); exact Hkey
           | exact Hfit].
        rewrite Hreject. unfold decoded.
        destruct g, (Z.testbit (u8 b1) 7), (Z.testbit (u8 b1) 6); reflexivity.
  - eexists _, _. split; [apply loadExtendedData_absent, Hkey |].
    rewrite (loadExtendedData_absent (reset_capabilities g));
      [| destruct g; exact Hkey].
    destruct g. reflexivity.
Qed.

(** X8.  A tag of ten bytes or more can only be refused for its
    secure-messaging byte: the decoder returns either nil or the error of
    [setSecureMessaging], which wraps [ErrNoSuchAlgorithm]; in particular
    the [ErrTooShort] of [setGetChallengeSupported] and the [ErrNotFound] of
    the accessors cannot come out of it. *)
Theorem loadExtendedData_only_refusal (g : GpgData) (tag : bytes) :
  tlvValues g !! extendedCapabilitiesTag = Some tag ->
  10 <= len tag < Int.max ->
  exists err g',
    loadExtendedData (Some g) = Returns (err, Some g')
    /\ (err = None
        \/ err = Some (Errorf "loadExtendedData(setSecureMessaging) failed: %w"
                         ErrNoSuchAlgorithm))
    /\ (forall e, err = Some e ->
                  errors_Is e ErrTooShort = false /\ errors_Is e ErrNotFound = false).
Proof.
  intros Hkey [Hlong Hfit].
  destruct tag as [l |]; [| unfold len in Hlong; simpl in Hlong; lia].
  destruct (ten_bytes l Hlong)
    as (b1 & b2 & b3 & b4 & b5 & b6 & b7 & b8 & b9 & b10 & rest & ->).
  rewrite (loadExtendedData_run g b1 b2 b3 b4 b5 b6 b7 b8 b9 b10 rest Hkey Hfit).
  destruct (Z.testbit (u8 b1) 7 && (u8 SecureMessagingAlgorithmLast <? u8 b2)).
  - eexists _, _. split; [reflexivity |]. split; [right; reflexivity |].
    intros e He. injection He as <-. split; reflexivity.
  - eexists _, _. split; [reflexivity |]. split; [left; reflexivity |].
    intros e He. discriminate He.
Qed.

(** ** The packed per-key arrays *)

Lemma firstn_plus {A : Type} (a b : nat) (l : list A) :
  firstn (a + b) l = firstn a l ++ firstn b (skipn a l).
Proof.
  revert l. induction a as [| a IH]; intros l; [reflexivity |].
  destruct l as [| x l]; [now destruct b |].
  cbn [Nat.add firstn skipn app]. rewrite IH. reflexivity.
Qed.

Lemma Fingerprint_entry (g : GpgData) (keyType : KeyType) (l : list byte) :
  0 <= keyType <= 3 ->
  tlvValues g !! keyInformationTag = Some (Some l) ->
  (keyType + 1) * 20 <= len (Some l) ->
  Fingerprint keyType (Some g)
  = Returns ((UpperCaseHexString
                (Some (firstn 20 (skipn (Z.to_nat (keyType * 20)) l))), None),
             Some g).
Proof.
  intros Hk Hkey Hlen.
  assert (Hget : GetTag keyInformationTag (keyType * 20 + 20) (Some g)
                 = Returns ((Some l, None), Some g))
    by (apply GetTag_present; [exact Hkey | lia]).
  assert (Hslice : slice (Some l) (keyType * 20) (keyType * 20 + 20)
                   = Returns (Some (firstn 20 (skipn (Z.to_nat (keyType * 20)) l)))).
  { rewrite slice_inside by lia. do 3 f_equal. lia. }
  unfold Fingerprint. step.
  rewrite getKeyLen_small by (unfold keyFingerprintLen; lia).
  unfold keyFingerprintLen. repeat step. reflexivity.
Qed.

Lemma ID_entry (g : GpgData) (keyType : KeyType) (l : list byte) :
  0 <= keyType <= 3 ->
  tlvValues g !! keyInformationTag = Some (Some l) ->
  (keyType + 1) * 20 <= len (Some l) ->
  ID keyType (Some g)
  = Returns ((UpperCaseHexString
                (Some (firstn 8 (skipn (Z.to_nat (keyType * 20 + 12)) l))), None),
             Some g).
Proof.
  intros Hk Hkey Hlen.
  assert (Hget : GetTag keyInformationTag (keyType * 20 + 20) (Some g)
                 = Returns ((Some l, None), Some g))
    by (apply GetTag_present; [exact Hkey | lia]).
  assert (Hslice : slice (Some l) (keyType * 20 + 20 - 8) (keyType * 20 + 20)
                   = Returns (Some (firstn 8 (skipn (Z.to_nat (keyType * 20 + 12)) l)))).
  { rewrite slice_inside by lia.
    replace (Z.to_nat (keyType * 20 + 20 - (keyType * 20 + 20 - 8))) with 8%nat by lia.
    replace (Z.to_nat (keyType * 20 + 20 - 8))
      with (Z.to_nat (keyType * 20 + 12)) by lia.
    reflexivity. }
  unfold ID. step.
  rewrite getKeyLen_small by (unfold keyFingerprintLen; lia).
  unfold keyFingerprintLen, Int.sub.
  rewrite wrap_inrange by (unfold Int.inrange, Int.min, Int.max; lia).
  repeat step. reflexivity.
Qed.

(** X9.  The entries of the three key slots tile the fingerprint tag: for a
    tag of 60 bytes or more the fingerprints of the signature, decryption
    and authentication keys, one after the other, are the hexadecimal text
    of its first 60 bytes. *)
Theorem Fingerprints_tile_the_tag (g : GpgData) (l : list byte) :
  tlvValues g !! keyInformationTag = Some (Some l) ->
  60 <= len (Some l) ->
  exists f0 f1 f2,
    Fingerprint SignatureKey (Some g) = Returns ((f0, None), Some g)
    /\ Fingerprint DecryptionKey (Some g) = Returns ((f1, None), Some g)
    /\ Fingerprint AuthenticationKey (Some g) = Returns ((f2, None), Some g)
    /\ f0 +:+ f1 +:+ f2 = UpperCaseHexString (Some (firstn 60 l)).
Proof.
  intros Hkey Hlen.
  eexists _, _, _.
  split; [apply Fingerprint_entry; [unfold SignatureKey; lia | exact Hkey
                                    | unfold SignatureKey; lia] |].
  split; [apply Fingerprint_entry; [unfold DecryptionKey; lia | exact Hkey
                                    | unfold DecryptionKey; lia] |].
  split; [apply Fingerprint_entry; [unfold AuthenticationKey; lia | exact Hkey
                                    | unfold AuthenticationKey; lia] |].
  change (Z.to_nat (SignatureKey * 20)) with 0%nat.
  change (Z.to_nat (DecryptionKey * 20)) with 20%nat.
  change (Z.to_nat (AuthenticationKey * 20)) with 40%nat.
  cbn [skipn].
  change 60%nat with (20 + (20 + 20))%nat.
  rewrite (firstn_plus 20 (20 + 20) l), (firstn_plus 20 20 (skipn 20 l)).
  rewrite skipn_skipn. change (20 + 20)%nat with 40%nat.
  rewrite !hex_app. reflexivity.
Qed.

(** X10.  [Fingerprint] and [ID] do not single out the attestation key:
    for key type 3 they read a fourth entry, bytes 60 to 79 of the tag, when
    the tag has them, where [Algorithm] refuses that key type. *)
Theorem Fingerprint_reads_a_fourth_entry (g : GpgData) (l : list byte) :
  tlvValues g !! keyInformationTag = Some (Some l) ->
  80 <= len (Some l) ->
  Fingerprint AttestKey (Some g)
  = Returns ((UpperCaseHexString (Some (firstn 20 (skipn 60 l))), None), Some g)
  /\ ID AttestKey (Some g)
     = Returns ((UpperCaseHexString (Some (firstn 8 (skipn 72 l))), None), Some g)
  /\ exists e, Algorithm AttestKey (Some g) = Returns ((EmptyString, Some e), Some g)
               /\ errors_Is e ErrNoSuchTag = true.
Proof.
  intros Hkey Hlen. split; [| split].
  - apply (Fingerprint_entry g AttestKey l); [unfold AttestKey; lia | exact Hkey
                                               | unfold AttestKey; lia].
  - apply (ID_entry g AttestKey l); [unfold AttestKey; lia | exact Hkey
                                      | unfold AttestKey; lia].
  - eexists. split; reflexivity.
Qed.

Lemma classic_entry (g : GpgData) (key : string) (n : Z) :
  (exists data, tlvValues g !! key = Some data /\ n <= len data)
  \/ ~ (exists data, tlvValues g !! key = Some data /\ n <= len data).
Proof.
  destruct (tlvValues g !! key) as [data |] eqn:Hkey.
  - destruct (Z.lt_ge_cases (len data) n) as [Hshort | Hlong].
    + right. intros (d & Hd & Hlen). injection Hd as <-. lia.
    + left. exists data. split; [reflexivity | exact Hlong].
  - right. intros (d & Hd & _). discriminate Hd.
Qed.

Lemma packed_tag_error (g : GpgData) (key : string) (n : Z) :
  ~ (exists data, tlvValues g !! key = Some data /\ n <= len data) ->
  exists e, GetTag key n (Some g) = Returns ((None, Some e), Some g).
Proof.
  intros Hno. destruct (tlvValues g !! key) as [data |] eqn:Hkey.
  - destruct (Z.lt_ge_cases (len data) n) as [Hshort | Hlong].
    + eexists. apply (GetTag_short g key n data Hkey Hshort).
    + destruct Hno. exists data. split; [reflexivity | exact Hlong].
  - eexists. apply GetTag_absent, Hkey.
Qed.

(** X11.  For every key type of ordinal 0 to 3 and every record,
    [Fingerprint], [ID] and [Date] return without panicking and leave the
    record as it was; each returns an error exactly when its tag is missing
    or stops short of the end of that key's entry, and the value that comes
    with an error is the zero value. *)
Theorem packed_accessors_total (g : GpgData) (keyType : KeyType) :
  0 <= keyType <= 3 ->
  (exists s err,
     Fingerprint keyType (Some g) = Returns ((s, err), Some g)
     /\ (err = None <-> exists data, tlvValues g !! keyInformationTag = Some data
                                     /\ (keyType + 1) * 20 <= len data)
     /\ (err <> None -> s = EmptyString))
  /\ (exists s err,
        ID keyType (Some g) = Returns ((s, err), Some g)
        /\ (err = None <-> exists data, tlvValues g !! keyInformationTag = Some data
                                        /\ (keyType + 1) * 20 <= len data)
        /\ (err <> None -> s = EmptyString))
  /\ (exists t err,
        Date keyType (Some g) = Returns ((t, err), Some g)
        /\ (err = None <-> exists data, tlvValues g !! keyDateTag = Some data
                                        /\ (keyType + 1) * 4 <= len data)
        /\ (err <> None -> t = TimeZero)).
Proof.
  intros Hk. split; [| split].
  - destruct (classic_entry g keyInformationTag ((keyType + 1) * 20))
      as [(data & Hkey & Hlen) | Hno].
    + destruct data as [l |]; [| unfold len in Hlen; simpl in Hlen; lia].
      eexists _, _. split; [apply (Fingerprint_entry g keyType l Hk Hkey Hlen) |].
      split; [| congruence].
      split; [intros _; exists (Some l); split; assumption | reflexivity].
    + destruct (packed_tag_error g keyInformationTag (keyType * 20 + 20)) as [e He].
      { intros (data & Hkey & Hlen). apply Hno. exists data. split; [exact Hkey | lia]. }
      eexists _, _. split.
      * unfold Fingerprint. step.
        rewrite getKeyLen_small by (unfold keyFingerprintLen; lia).
        unfold keyFingerprintLen. step. reflexivity.
      * split; [| reflexivity].
        split; [discriminate | intros Hyes; destruct (Hno Hyes)].
  - destruct (classic_entry g keyInformationTag ((keyType + 1) * 20))
      as [(data & Hkey & Hlen) | Hno].
    + destruct data as [l |]; [| unfold len in Hlen; simpl in Hlen; lia].
      eexists _, _. split; [apply (ID_entry g keyType l Hk Hkey Hlen) |].
      split; [| congruence].
      split; [intros _; exists (Some l); split; assumption | reflexivity].
    + destruct (packed_tag_error g keyInformationTag (keyType * 20 + 20)) as [e He].
      { intros (data & Hkey & Hlen). apply Hno. exists data. split; [exact Hkey | lia]. }
      eexists _, _. split.
      * unfold ID. step.
        rewrite getKeyLen_small by (unfold keyFingerprintLen; lia).
        unfold keyFingerprintLen. step. reflexivity.
      * split; [| reflexivity].
        split; [discriminate | intros Hyes; destruct (Hno Hyes)].
  - destruct (classic_entry g keyDateTag ((keyType + 1) * 4))
      as [(data & Hkey & Hlen) | Hno].
    + destruct data as [l |] eqn:Hdata; [| unfold len in Hlen; simpl in Hlen; lia].
      assert (Hfour : length (firstn 4 (skipn (Z.to_nat (keyType * 4)) l)) = 4%nat).
      { rewrite length_firstn, length_skipn. rewrite len_Some in Hlen. lia. }
      destruct (firstn 4 (skipn (Z.to_nat (keyType * 4)) l))
        as [| b0 [| b1 [| b2 [| b3 [| b4 more]]]]] eqn:Hentry; try discriminate Hfour.
      eexists _, _.
      split; [apply (Date_entry g keyType l b0 b1 b2 b3 Hk Hkey Hlen Hentry) |].
      split; [| congruence].
      split; [intros _; exists (Some l); split; assumption | reflexivity].
    + destruct (packed_tag_error g keyDateTag (keyType * 4 + 4)) as [e He].
      { intros (data & Hkey & Hlen). apply Hno. exists data. split; [exact Hkey | lia]. }
      eexists _, _. split.
      * unfold Date. step.
        rewrite getKeyLen_small by (unfold keyDateLen; lia).
        unfold keyDateLen. step. reflexivity.
      * split; [| reflexivity].
        split; [discriminate | intros Hyes; destruct (Hno Hyes)].
Qed.

(** ** Algorithm and Origin on any record *)

Lemma algorithmAttributesTag_none (keyType : KeyType) :
  keyType <> SignatureKey -> keyType <> DecryptionKey -> keyType <> AuthenticationKey ->
  algorithmAttributesTag keyType = None.
Proof.
  intros H0 H1 H2. unfold algorithmAttributesTag.
  destruct (Z.eqb_spec keyType SignatureKey); [contradiction |].
  destruct (Z.eqb_spec keyType DecryptionKey); [contradiction |].
  destruct (Z.eqb_spec keyType AuthenticationKey); [contradiction |].
  reflexivity.
Qed.

(** X12.  [Algorithm] returns on every record and for every key type, also
    one outside the enumeration: it never panics and never changes the
    record.  The text that comes with an error is empty.  Any key type other
    than signature, decryption and authentication is refused with an error
    that wraps [ErrNoSuchTag], before the tag map is read.  A result without
    error means the key's tag is present with a first byte [d0] and either
    [d0 <= 3] or the tag has three bytes. *)
Theorem Algorithm_total (g : GpgData) (keyType : KeyType) :
  exists s err,
    Algorithm keyType (Some g) = Returns ((s, err), Some g)
    /\ (err <> None -> s = EmptyString)
    /\ (keyType <> SignatureKey -> keyType <> DecryptionKey ->
        keyType <> AuthenticationKey ->
        err = Some (Errorf "%w : unknown value: %d" ErrNoSuchTag))
    /\ (err = None ->
        exists key data d0,
          algorithmAttributesTag keyType = Some key
          /\ tlvValues g !! key = Some data
          /\ nth_error (elems data) 0 = Some d0
          /\ (u8 d0 <= 3 \/ 3 <= len data)).
Proof.
  destruct (algorithmAttributesTag keyType) as [key |] eqn:Htag.
  - assert (Hknown : ~ (keyType <> SignatureKey /\ keyType <> DecryptionKey
                        /\ keyType <> AuthenticationKey)).
    { intros (H0 & H1 & H2).
      rewrite (algorithmAttributesTag_none keyType H0 H1 H2) in Htag. discriminate. }
    destruct (classic_entry g key 1) as [(data & Hkey & Hlen) | Hno].
    + destruct (index_inside data 0) as (d0 & _ & Hd0); [lia |].
      change (Z.to_nat 0) with 0%nat in Hd0.
      rewrite (Algorithm_reads_tag g keyType key data d0 Htag Hkey Hd0).
      destruct (Z.ltb_spec 3 (u8 d0)) as [Hgt | Hle].
      * destruct (Z.ltb_spec (len data) 3) as [Hshort | Hlong].
        -- eexists _, _. split; [reflexivity |]. split; [reflexivity |].
           split; [intros H0 H1 H2; destruct Hknown; auto | discriminate].
        -- destruct (index_inside data 1) as (d1 & _ & Hd1); [lia |].
           destruct (index_inside data 2) as (d2 & _ & Hd2); [lia |].
           change (Z.to_nat 1) with 1%nat in Hd1. change (Z.to_nat 2) with 2%nat in Hd2.
           rewrite Hd1, Hd2.
           eexists _, _. split; [reflexivity |]. split; [congruence |].
           split; [intros H0 H1 H2; destruct Hknown; auto |].
           intros _. exists key, data, d0. repeat split; auto.
      * eexists _, _. split; [reflexivity |]. split; [congruence |].
        split; [intros H0 H1 H2; destruct Hknown; auto |].
        intros _. exists key, data, d0. repeat split; auto.
    + destruct (packed_tag_error g key 1 Hno) as [e He].
      eexists _, _. split.
      * unfold Algorithm. rewrite Htag. repeat step. reflexivity.
      * split; [reflexivity |].
        split; [intros H0 H1 H2; destruct Hknown; auto | discriminate].
  - eexists _, _. split.
    + unfold Algorithm. rewrite Htag. step. reflexivity.
    + split; [reflexivity |]. split; [reflexivity | discriminate].
Qed.

(** X13.  Whatever [Origin] returns, the record is as it was.  An origin
    returned without error is the byte of the origin tag at the key type's
    offset and is never above [KeyOriginLast]; an origin returned with an
    error is always [KeyNotPresent]. *)
Theorem Origin_sound (g : GpgData) (keyType : KeyType) (v : KeyOrigin)
        (err : option error) (g' : option GpgData) :
  0 <= KeyOriginLast < 2 ^ 64 ->
  Origin keyType (Some g) = Returns ((v, err), g') ->
  g' = Some g
  /\ (err <> None -> v = KeyNotPresent)
  /\ (err = None ->
      0 <= v <= KeyOriginLast
      /\ exists data d,
           tlvValues g !! keyOriginAttributesTag = Some data
           /\ 0 <= Offset keyType
           /\ nth_error (elems data) (Z.to_nat (Offset keyType)) = Some d
           /\ v = u8 d).
Proof.
  intros Hlast Hrun.
  destruct (tlvValues g !! keyOriginAttributesTag) as [data |] eqn:Hkey.
  - destruct (Z.eq_dec (len data) 0) as [Hzero | Hnz].
    + rewrite (Origin_miss g keyType) in Hrun
        by (right; exists data; split; [exact Hkey | exact Hzero]).
      injection Hrun as <- <- <-. split; [reflexivity |].
      split; [reflexivity | discriminate].
    + pose proof (len_nonneg data) as Hnn.
      destruct (Z.lt_ge_cases (len data) KeyTypeSize) as [Hshort | Hlong].
      * unfold Origin in Hrun. revert Hrun. step.
        erewrite bind_returns by apply (HasTag_present g _ data Hkey).
        cbv beta iota.
        destruct (Z.eqb_spec (len data) 0) as [Hz | _]; [lia |]. cbn [orb negb].
        erewrite bind_returns
          by apply (GetTag_short g _ KeyTypeSize data Hkey Hshort).
        cbv beta iota. intros Hrun.
        injection Hrun as <- <- <-. split; [reflexivity |].
        split; [reflexivity | discriminate].
      * destruct (Z.lt_ge_cases (Offset keyType) 0) as [Hneg | Hoff].
        { unfold Origin in Hrun. revert Hrun. step.
          erewrite bind_returns by apply (HasTag_present g _ data Hkey).
          cbv beta iota.
          destruct (Z.eqb_spec (len data) 0) as [Hz | _]; [lia |]. cbn [orb negb].
          erewrite bind_returns
            by apply (GetTag_present g _ KeyTypeSize data Hkey Hlong).
          cbv beta iota.
          rewrite (bind_panics _ _ _ IndexOutOfRange)
            by (apply call_panics, index_outside; left; exact Hneg).
          discriminate. }
        destruct (nth_error (elems data) (Z.to_nat (Offset keyType))) as [d |] eqn:Hd.
        -- rewrite (Origin_reads_byte g keyType data d Hlast Hkey) in Hrun
             by (assumption || lia).
           pose proof (u8_range d) as Hr.
           destruct (Z.ltb_spec KeyOriginLast (u8 d)) as [Hgt | Hle];
             injection Hrun as <- <- <-.
           ++ split; [reflexivity |]. split; [reflexivity | discriminate].
           ++ split; [reflexivity |]. split; [congruence |].
              intros _. split; [lia |]. exists data, d. repeat split; auto.
        -- unfold Origin in Hrun. revert Hrun. step.
           erewrite bind_returns by apply (HasTag_present g _ data Hkey).
           cbv beta iota.
           destruct (Z.eqb_spec (len data) 0) as [Hz | _]; [lia |]. cbn [orb negb].
           erewrite bind_returns
             by apply (GetTag_present g _ KeyTypeSize data Hkey Hlong).
           cbv beta iota.
           rewrite (bind_panics _ _ _ IndexOutOfRange).
           ++ discriminate.
           ++ apply call_panics, index_outside. right.
              apply nth_error_None in Hd. unfold len. lia.
  - rewrite (Origin_miss g keyType) in Hrun by (left; exact Hkey).
    injection Hrun as <- <- <-. split; [reflexivity |].
    split; [reflexivity | discriminate].
Qed.

(** ** The name normalizer on any input *)

Lemma map_chars_length (f : ascii -> ascii) (s : string) :
  String.length (map_chars f s) = String.length s.
Proof. induction s as [| c s IH]; simpl; [reflexivity | now rewrite IH]. Qed.

Lemma get_after_prefix (a b : string) (c : ascii) :
  String.get (String.length a) (a +:+ String c b) = Some c.
Proof.
  induction a as [| x a IH]; [reflexivity |].
  rewrite append_cons. simpl. exact IH.
Qed.

Lemma map_chars_plain (s : string) :
  (forall n, String.get n s <> Some "<"%char) -> map_chars lt_to_space s = s.
Proof.
  induction s as [| c s IH]; intros Hplain; [reflexivity |].
  cbn [map_chars]. rewrite IH by (intros n; apply (Hplain (S n))).
  unfold lt_to_space. destruct (Ascii.eqb_spec c "<") as [-> | _]; [| reflexivity].
  destruct (Hplain 0%nat). reflexivity.
Qed.

Lemma plain_has_no_marker (s : string) :
  (forall n, String.get n s <> Some "<"%char) -> forall m, ~ occurs_at "<<" s m.
Proof.
  intros Hplain m (a & b & -> & _).
  apply (Hplain (String.length a)).
  change ("<<" +:+ b) with (String "<" (String "<" b)).
  apply get_after_prefix.
Qed.

(** X14.  [ParseCardHolderName] returns a string for every input: none of
    its slice expressions can go out of range.  A non-empty name that holds
    no [<] comes back unchanged, and for a non-empty name the result is
    never longer than the input. *)
Theorem ParseCardHolderName_total (name : bytes) :
  len name <= Int.max ->
  let s := string_of_list_byte (elems name) in
  exists r,
    ParseCardHolderName name = Returns r
    /\ (0 < len name -> (forall n, String.get n s <> Some "<"%char) -> r = s)
    /\ (0 < len name -> Z.of_nat (String.length r) <= len name).
Proof.
  intros Hfit s. subst s.
  pose proof (len_nonneg name) as Hnn.
  assert (Hsl : Z.of_nat (String.length (string_of_list_byte (elems name))) = len name).
  { unfold len. now rewrite length_string_of_bytes. }
  destruct (Z.eq_dec (len name) 0) as [Hz | Hnz].
  - eexists. split; [apply ParseCardHolderName_empty, Hz |]. split; intros; lia.
  - destruct (strings_Index_from_spec "<<" (string_of_list_byte (elems name)) 0)
      as [[_ Hno] | (n & _ & Hocc & Hmin)].
    + eexists. split; [apply ParseCardHolderName_no_marker; [lia | exact Hno] |].
      split.
      * intros _ Hplain. apply map_chars_plain, Hplain.
      * intros _. rewrite map_chars_length. lia.
    + destruct Hocc as (pre & post & Hs & Hn). subst n.
      eexists. split.
      * rewrite Hs in Hmin. apply (ParseCardHolderName_marker name pre post Hfit Hs Hmin).
      * split.
        -- intros _ Hplain. exfalso.
           apply (plain_has_no_marker _ Hplain (String.length pre)).
           exists pre, post. split; [exact Hs | reflexivity].
        -- intros _. rewrite Hs, !length_append in Hsl. simpl in Hsl.
           rewrite length_append, map_chars_length.
           destruct post as [| c post]; [simpl; lia |].
           rewrite length_append. simpl in Hsl |- *. lia.
Qed.

(** ** The construction pass on a full identifier *)

Lemma fmtX_length (b : byte) :
  String.length (fmtX b) = if u8 b <? 16 then 1%nat else 2%nat.
Proof. unfold fmtX. destruct (u8 b <? 16); reflexivity. Qed.

Lemma update_runs (g : GpgData)
      (a0 a1 a2 a3 a4 a5 a6 a7 a8 a9 a10 a11 a12 a13 : byte) (rest : list byte) :
  let aid := a0 :: a1 :: a2 :: a3 :: a4 :: a5 :: a6 :: a7 :: a8 :: a9 :: a10 :: a11
                :: a12 :: a13 :: rest in
  tlvValues g !! "6E.4F" = Some (Some aid) ->
  (forall key data, tlvValues g !! key = Some data -> len data < Int.max) ->
  exists cardHolder err g',
    ParseCardHolderName (match tlvValues g !! "65.5B" with
                         | Some data => data
                         | None => None
                         end) = Returns cardHolder
    /\ loadExtendedData
         (Some (identified a0 a1 a2 a3 a4 a5 a6 a7 a8 a9 a10 a11 a12 a13 cardHolder g))
       = Returns (err, Some g')
    /\ update (Some g) = Returns (err, Some g').
Proof.
  intros aid Hkey Hfit.
  destruct (update_reaches_decoder g a0 a1 a2 a3 a4 a5 a6 a7 a8 a9 a10 a11 a12 a13 rest
              Hkey) as (cardHolder & Hparse & Hrun).
  { intros data Hdata. specialize (Hfit _ _ Hdata). lia. }
  destruct (decoder_keeps_identity
              (identified a0 a1 a2 a3 a4 a5 a6 a7 a8 a9 a10 a11 a12 a13 cardHolder g))
    as (err & g' & Hload & _).
  { intros tag Htag. apply (Hfit extendedCapabilitiesTag).
    unfold identified in Htag. destruct g. exact Htag. }
  exists cardHolder, err, g'. split; [exact Hparse |]. split; [exact Hload |].
  rewrite Hrun. rewrite (bind_returns _ _ _ _ _ Hload).
  destruct err; reflexivity.
Qed.

(** X15.  With an application identifier of 14 bytes or more, on a record
    whose tag values have lengths that fit an [int], [update] returns
    without panicking.  Whether or not the capability decoder then reports
    an error, the record it leaves has: the serial number text of bytes
    10-13 ([%X] for the first, two digits for the others, so 7 or 8
    characters), the same four bytes as a big-endian number, the RID of
    bytes 0-4, the application, version and manufacturer texts of bytes 5,
    6-7 and 8-9 with their annotations, the long name built from the reader
    name and those texts, and the normalized cardholder name; the reader
    name and the tag map are untouched. *)
Theorem update_builds_identity (g : GpgData)
        (a0 a1 a2 a3 a4 a5 a6 a7 a8 a9 a10 a11 a12 a13 : byte) (rest : list byte) :
  let aid := a0 :: a1 :: a2 :: a3 :: a4 :: a5 :: a6 :: a7 :: a8 :: a9 :: a10 :: a11
                :: a12 :: a13 :: rest in
  tlvValues g !! "6E.4F" = Some (Some aid) ->
  (forall key data, tlvValues g !! key = Some data -> len data < Int.max) ->
  exists cardHolder err g',
    update (Some g) = Returns (err, Some g')
    /\ ParseCardHolderName (match tlvValues g !! "65.5B" with
                            | Some data => data
                            | None => None
                            end) = Returns cardHolder
    /\ Serial g' = fmtX a10 +:+ fmt02X a11 +:+ fmt02X a12 +:+ fmt02X a13
    /\ String.length (Serial g') = (if u8 a10 <? 16 then 7%nat else 8%nat)
    /\ SerialInt g' = u8 a10 * 2 ^ 24 + u8 a11 * 2 ^ 16 + u8 a12 * 2 ^ 8 + u8 a13
    /\ Rid g' = fmt02X a0 +:+ fmt02X a1 +:+ fmt02X a2 +:+ fmt02X a3 +:+ fmt02X a4
    /\ Application g'
       = fmt02X a5 +:+ (if u8 a5 =? 1 then " (OpenPGP)" else EmptyString)
    /\ Version g' = fmtX a6 +:+ "." +:+ fmtX a7
    /\ Manufacturer g'
       = fmt02X a8 +:+ fmt02X a9
         +:+ (if (u8 a8 =? 0) && (u8 a9 =? 6) then " (YubiCo)" else EmptyString)
    /\ LongName g'
       = Reader g +:+ " SN " +:+ Serial g' +:+ " OpenPGP " +:+ Version g'
    /\ CardHolder g' = cardHolder
    /\ Reader g' = Reader g
    /\ tlvValues g' = tlvValues g.
Proof.
  intros aid Hkey Hfit.
  destruct (update_runs g a0 a1 a2 a3 a4 a5 a6 a7 a8 a9 a10 a11 a12 a13 rest Hkey Hfit)
    as (cardHolder & err & g' & Hparse & Hload & Hrun).
  destruct (decoder_keeps_identity
              (identified a0 a1 a2 a3 a4 a5 a6 a7 a8 a9 a10 a11 a12 a13 cardHolder g))
    as (err2 & g2 & Hload2 & HReader & HSerial & HSerialInt & HLongName & HCardHolder
        & HRid & HApplication & HVersion & HManufacturer & Htlv).
  { intros tag Htag. apply (Hfit extendedCapabilitiesTag).
    unfold identified in Htag. destruct g. exact Htag. }
  rewrite Hload in Hload2. injection Hload2 as <- <-.
  exists cardHolder, err, g'. split; [exact Hrun |]. split; [exact Hparse |].
  rewrite HSerial, HSerialInt, HRid, HApplication, HVersion, HManufacturer,
    HLongName, HCardHolder, HReader, Htlv.
  unfold identified. rewrite <- Uint32_value.
  destruct g. cbn.
  repeat split; try reflexivity.
  rewrite !length_append, fmtX_length. destruct (u8 a10 <? 16); reflexivity.
Qed.

(** ** Rebuilding the record *)

Lemma decoder_after_identity_twice (g : GpgData)
      (a0 a1 a2 a3 a4 a5 a6 a7 a8 a9 a10 a11 a12 a13 : byte) (cardHolder : string) :
  (forall tag, tlvValues g !! extendedCapabilitiesTag = Some tag -> len tag < Int.max) ->
  exists err g',
    loadExtendedData
      (Some (identified a0 a1 a2 a3 a4 a5 a6 a7 a8 a9 a10 a11 a12 a13 cardHolder g))
    = Returns (err, Some g')
    /\ loadExtendedData
         (Some (identified a0 a1 a2 a3 a4 a5 a6 a7 a8 a9 a10 a11 a12 a13 cardHolder g'))
       = Returns (err, Some g')
    /\ tlvValues g' = tlvValues g.
Proof.
  intros Hfit.
  destruct (tlvValues g !! extendedCapabilitiesTag) as [tag |] eqn:Hkey.
  - specialize (Hfit tag eq_refl).
    destruct (Z.lt_ge_cases (len tag) 10) as [Hshort | Hlong].
    + eexists _, _. split; [| split].
      * apply (loadExtendedData_short _ tag); [destruct g; exact Hkey | exact Hshort].
      * rewrite (loadExtendedData_short _ tag); [| destruct g; exact Hkey | exact Hshort].
        destruct g. reflexivity.
      * destruct g. reflexivity.
    + destruct tag as [l |]; [| unfold len in Hlong; simpl in Hlong; lia].
      destruct (ten_bytes l Hlong)
        as (b1 & b2 & b3 & b4 & b5 & b6 & b7 & b8 & b9 & b10 & rest & ->).
      destruct (Z.testbit (u8 b1) 7 && (u8 SecureMessagingAlgorithmLast <? u8 b2))
        eqn:Hreject.
      * eexists _, _. split; [| split].
        -- rewrite (loadExtendedData_run _ b1 b2 b3 b4 b5 b6 b7 b8 b9 b10 rest);
             [| destruct g; exact Hkey | exact Hfit].
           rewrite Hreject. reflexivity.
        -- rewrite (loadExtendedData_run _ b1 b2 b3 b4 b5 b6 b7 b8 b9 b10 rest);
             [| destruct g; exact Hkey | exact Hfit].
           rewrite Hreject. destruct g. reflexivity.
        -- destruct g. reflexivity.
      * eexists _, _. split; [| split].
        -- rewrite (loadExtendedData_run _ b1 b2 b3 b4 b5 b6 b7 b8 b9 b10 rest);
             [| destruct g; exact Hkey | exact Hfit].
           rewrite Hreject. reflexivity.
        -- rewrite (loadExtendedData_run _ b1 b2 b3 b4 b5 b6 b7 b8 b9 b10 rest);
             [| unfold decoded;
                destruct g, (Z.testbit (u8 b1) 7), (Z.testbit (u8 b1) 6); exact Hkey
              | exact Hfit].
           rewrite Hreject. unfold decoded.
           destruct g, (Z.testbit (u8 b1) 7), (Z.testbit (u8 b1) 6); reflexivity.
        -- unfold decoded.
           destruct g, (Z.testbit (u8 b1) 7), (Z.testbit (u8 b1) 6); reflexivity.
  - eexists _, _. split; [| split].
    + apply loadExtendedData_absent. destruct g. exact Hkey.
    + rewrite loadExtendedData_absent by (destruct g; exact Hkey).
      destruct g. reflexivity.
    + destruct g. reflexivity.
Qed.

(** X16.  [update] is idempotent on a record with an identifier of 14
    bytes or more: run again on the record it left, with the same tag map,
    it returns the same error and leaves the same record. *)
Theorem update_idempotent (g : GpgData)
        (a0 a1 a2 a3 a4 a5 a6 a7 a8 a9 a10 a11 a12 a13 : byte) (rest : list byte) :
  let aid := a0 :: a1 :: a2 :: a3 :: a4 :: a5 :: a6 :: a7 :: a8 :: a9 :: a10 :: a11
                :: a12 :: a13 :: rest in
  tlvValues g !! "6E.4F" = Some (Some aid) ->
  (forall key data, tlvValues g !! key = Some data -> len data < Int.max) ->
  exists err g',
    update (Some g) = Returns (err, Some g')
    /\ update (Some g') = Returns (err, Some g').
Proof.
  intros aid Hkey Hfit.
  destruct (update_reaches_decoder g a0 a1 a2 a3 a4 a5 a6 a7 a8 a9 a10 a11 a12 a13 rest
              Hkey) as (cardHolder & Hparse & Hrun).
  { intros data Hdata. specialize (Hfit _ _ Hdata). lia. }
  destruct (decoder_after_identity_twice g a0 a1 a2 a3 a4 a5 a6 a7 a8 a9 a10 a11 a12 a13
              cardHolder (Hfit extendedCapabilitiesTag))
    as (err & g' & Hload & Hload' & Htlv).
  exists err, g'. split.
  - rewrite Hrun, (bind_returns _ _ _ _ _ Hload). destruct err; reflexivity.
  - destruct (update_reaches_decoder g' a0 a1 a2 a3 a4 a5 a6 a7 a8 a9 a10 a11 a12 a13 rest)
      as (cardHolder' & Hparse' & Hrun').
    + rewrite Htlv. exact Hkey.
    + intros data Hdata. rewrite Htlv in Hdata. specialize (Hfit _ _ Hdata). lia.
    + rewrite Htlv, Hparse in Hparse'. injection Hparse' as <-.
      rewrite Hrun', (bind_returns _ _ _ _ _ Hload'). destruct err; reflexivity.
Qed.

(** X17.  Without an identifier of 13 bytes or more -- the tag missing, or
    present and shorter -- [update] returns the error of [GetTag] as it is
    and leaves the record exactly as it was; for a missing tag the error is
    [ErrNoSuchTag]. *)
Theorem update_without_identifier (g : GpgData) :
  ~ (exists aid, tlvValues g !! "6E.4F" = Some aid /\ 13 <= len aid) ->
  exists e,
    update (Some g) = Returns (Some e, Some g)
    /\ GetTag "6E.4F" 13 (Some g) = Returns ((None, Some e), Some g)
    /\ (tlvValues g !! "6E.4F" = None -> e = Sentinel ErrNoSuchTag).
Proof.
  intros Hno. destruct (packed_tag_error g "6E.4F" 13 Hno) as [e He].
  exists e. split; [| split].
  - unfold update. step. reflexivity.
  - exact He.
  - intros Habsent. rewrite (GetTag_absent g _ _ Habsent) in He.
    injection He as <-. reflexivity.
Qed.

(** ** Empty ranges *)

(** X18.  An empty range is treated differently at the two ends of a
    block: [(k, k - 1)] with [1 <= k <= N] returns an empty slice without
    error, while [(N + 1, N)], the empty range after the last byte, is
    [ErrNotFound]. *)
Theorem empty_range_edges (l : list byte) (k : Z) :
  len (Some l) < Int.max ->
  (1 <= k <= len (Some l) ->
   getBytesWith1BasedIndexing (Some l) k (k - 1) = Returns (Some [], None))
  /\ getBytesWith1BasedIndexing (Some l) (len (Some l) + 1) (len (Some l))
     = Returns (None, Some (Sentinel ErrNotFound)).
Proof.
  intros Hfit. split.
  - intros Hk. rewrite getBytes_ok by lia.
    replace (Z.to_nat (k - 1 - (k - 1))) with 0%nat by lia. reflexivity.
  - apply getBytes_above. left. lia.
Qed.

End Card.

(** ** The theorems at the sample cards *)

Lemma ParseCardHolderName_spec_witness :
  ParseCardHolderName (Some (list_byte_of_string "DOE<<JOHN"))
  = Returns ("JOHN" +:+ nl +:+ "DOE").
Proof.
  assert (Hfit : len (Some (list_byte_of_string "DOE<<JOHN")) <= Int.max)
    by (vm_compute; discriminate).
  destruct (ParseCardHolderName_spec (Some (list_byte_of_string "DOE<<JOHN")) Hfit)
    as (_ & Hmarker & _).
  apply (Hmarker "DOE" "JOHN"); [reflexivity |].
  intros m (a & b & Heq & Hm). subst m.
  change (string_of_list_byte (elems (Some (list_byte_of_string "DOE<<JOHN"))))
    with "DOE<<JOHN" in Heq.
  destruct a as [| c1 [| c2 [| c3 a]]];
    rewrite ?append_cons, ?append_nil_l in Heq;
    try discriminate Heq.
  simpl. lia.
Defined.

Lemma accessor_boundaries_witness :
  getByteWith1BasedIndexing (Some [x0a; x0b; x0c]) 4
  = Returns (x00, Some (Sentinel ErrNotFound))
  /\ getBytesWith1BasedIndexing (Some [x0a; x0b; x0c]) 3 3 = Returns (Some [x0c], None).
Proof.
  assert (Hfit : len (Some [x0a; x0b; x0c]) < Int.max) by reflexivity.
  destruct (accessor_boundaries [x0a; x0b; x0c] Hfit) as (_ & Habove & Hlast & _).
  split; [exact Habove |]. apply Hlast. vm_compute. discriminate.
Defined.

(** C8, as stated, fails on the empty block: the range [(N, N)] with
    [N = 0] is not read, its slice expression [b[-1:0]] panics. *)
Lemma range_N_N_panics_on_empty_block :
  getBytesWith1BasedIndexing (Some []) (len (Some [])) (len (Some []))
  = Panics SliceBoundsOutOfRange
  /\ ~ (forall l : list byte,
          exists r, getBytesWith1BasedIndexing (Some l) (len (Some l)) (len (Some l))
                    = Returns (r, None)).
Proof.
  split; [reflexivity |].
  intros H. destruct (H []) as [r Hr]. discriminate Hr.
Qed.

Lemma accessors_check_upper_bound_only_witness :
  getByteWith1BasedIndexing (Some [x0a; x0b]) 0 = Panics IndexOutOfRange
  /\ getBytesWith1BasedIndexing (Some [x0a; x0b]) 2 0 = Panics SliceBoundsOutOfRange.
Proof.
  assert (Hi : Int.inrange 0) by (split; discriminate).
  assert (Hs : Int.inrange 2) by (split; discriminate).
  assert (Hfit : len (Some [x0a; x0b]) < Int.max) by reflexivity.
  destruct (accessors_check_upper_bound_only (Some [x0a; x0b]) 0 2 0 Hi Hs Hfit)
    as (_ & _ & Hbyte & Hbytes).
  split.
  - apply Hbyte; [discriminate | discriminate | reflexivity].
  - apply Hbytes; [discriminate | discriminate | discriminate |].
    right. reflexivity.
Defined.

Lemma Algorithm_spec_witness :
  Algorithm DecryptionKey (Some sample_card)
  = Returns (("RSA " +:+ fmtd 2048, None), Some sample_card).
Proof.
  destruct (Algorithm_spec sample_card DecryptionKey keyAlgorithmDecryptionAttributesTag
              (Some [x12; x08; x00]) x12)
    as (Hrsa & _); [right; left; reflexivity | reflexivity | reflexivity | reflexivity |].
  destruct Hrsa as (d1 & d2 & H1 & H2 & Hrun); [reflexivity | discriminate |].
  injection H1 as <-. injection H2 as <-. exact Hrun.
Defined.

Lemma Fingerprint_ID_spec_witness :
  Fingerprint AuthenticationKey (Some sample_card)
  = Returns (("A0A1A2A3A4A5A6A7A8A9B0B1B2B3B4B5B6B7B8B9", None), Some sample_card)
  /\ ID AuthenticationKey (Some sample_card)
     = Returns (("B2B3B4B5B6B7B8B9", None), Some sample_card).
Proof.
  destruct (Fingerprint_ID_spec sample_card AuthenticationKey (Some sample_fingerprints))
    as (_ & _ & Hfp & Hid & _);
    [split; discriminate | reflexivity | discriminate |].
  split; [exact Hfp | exact Hid].
Defined.

Lemma Origin_spec_witness :
  Origin 4 3 0 DecryptionKey (Some sample_card) = Returns ((2, None), Some sample_card)
  /\ exists e, Origin 4 3 0 DecryptionKey (Some blank_card)
               = Returns ((0, Some e), Some blank_card)
               /\ errors_Is e ErrKeyNotPresent = true.
Proof.
  assert (Hlast : 0 <= 3 < 2 ^ 64) by (split; [discriminate | reflexivity]).
  destruct (Origin_spec 4 3 0 sample_card DecryptionKey Hlast) as (_ & Hbyte).
  destruct (Origin_spec 4 3 0 blank_card DecryptionKey Hlast) as (Hmiss & _).
  split.
  - destruct (Hbyte (Some [x01; x02; x09; x00]) x02) as (_ & Hok);
      [reflexivity | reflexivity | discriminate | discriminate | reflexivity |].
    apply Hok. discriminate.
  - apply Hmiss. left. reflexivity.
Defined.

Lemma secure_messaging_gating_witness :
  exists err g',
    loadExtendedData x03 x00 (Some sample_card) = Returns (err, Some g')
    /\ SecureMessagingSupported g' = true /\ SecureMessaging g' = x02.
Proof.
  destruct (secure_messaging_gating x03 x00 sample_card
              (Some [x80; x02; x00; x00; x08; x00; x00; xff; x00; x01]) x80 x02)
    as (err & g' & Hrun & Hset & _);
    [reflexivity | split; [discriminate | reflexivity] | reflexivity | reflexivity |].
  exists err, g'. split; [exact Hrun |].
  destruct (Hset eq_refl) as (_ & _ & Hok). apply Hok. discriminate.
Defined.

Lemma absent_tag_keeps_defaults_witness :
  exists g',
    loadExtendedData x03 x00 (Some blank_card) = Returns (None, Some g')
    /\ SecureMessagingSupported g' = false /\ MSECommandSupported g' = false.
Proof.
  destruct (absent_tag_keeps_defaults x03 x00 "Yubico YubiKey" false ∅)
    as (_ & g' & Hrun & H);
    [reflexivity |].
  exists g'. split; [exact Hrun |]. split; [apply H | apply H].
Defined.

Lemma update_panics_on_13_byte_identifier_witness :
  update x03 x00 (Some short_card) = Panics IndexOutOfRange.
Proof.
  apply (update_panics_on_13_byte_identifier x03 x00 short_card (Some sample_aid13));
    reflexivity.
Defined.

(** ** Runs of the model *)

(** The construction pass on the sample card. *)
Example update_sample_card :
  exists g',
    update x03 x00 (Some sample_card) = Returns (None, Some g')
    /\ Serial g' = "3645311"
    /\ SerialInt g' = 56906513
    /\ LongName g' = "Yubico YubiKey SN 3645311 OpenPGP 2.1"
    /\ CardHolder g' = "JOHN" +:+ nl +:+ "DOE"
    /\ Rid g' = "D276000124"
    /\ Application g' = "01 (OpenPGP)"
    /\ Version g' = "2.1"
    /\ Manufacturer g' = "0006 (YubiCo)"
    /\ SecureMessagingSupported g' = true
    /\ MaximumCardholderCertificatesLength g' = 2048
    /\ MaximumSpecialDOsLength g' = 255
    /\ MSECommandSupported g' = true.
Proof. eexists. vm_compute. repeat split. Qed.

Example Algorithm_sample_card :
  Algorithm SignatureKey (Some sample_card)
  = Returns (("Alg=1   ", None), Some sample_card)
  /\ Algorithm AuthenticationKey (Some sample_card)
     = Returns ((EmptyString,
                 Some (Errorf "%w: expected length [%d] > [3]" ErrNoSuchAlgorithm)),
                Some sample_card)
  /\ Algorithm AttestKey (Some sample_card)
     = Returns ((EmptyString, Some (Errorf "%w : unknown value: %d" ErrNoSuchTag)),
                Some sample_card).
Proof. vm_compute. repeat split. Qed.

Example Origin_sample_card :
  Origin 4 3 0 AuthenticationKey (Some sample_card)
  = Returns ((0, Some (Errorf "keyValue: [%d] > KeyOriginLast:[%d] for Origin(%s): %w"
                         ErrUnknownKeyOrigin)), Some sample_card).
Proof. vm_compute. reflexivity. Qed.

Example ParseCardHolderName_samples :
  ParseCardHolderName (Some (list_byte_of_string "DOE<<")) = Returns "DOE"
  /\ ParseCardHolderName (Some (list_byte_of_string "DOE<<<JOHN"))
     = Returns ("<JOHN" +:+ nl +:+ "DOE")
  /\ ParseCardHolderName None = Returns "[not set]".
Proof. vm_compute. repeat split. Qed.

(** ** The further properties at the sample cards *)

Lemma sample_tlv_fits :
  forall key data, sample_tlv !! key = Some data -> len data < Int.max.
Proof.
  assert (Hall : map_Forall (fun (_ : string) data => len data < Int.max) sample_tlv).
  { refine (bool_decide_unpack _ _). vm_compute. exact I. }
  exact Hall.
Defined.

Lemma Date_reads_entry_witness :
  Date AuthenticationKey (Some dated_card)
  = Returns ((TimeUnix 1610678787 0, None), Some dated_card).
Proof.
  destruct (Date_reads_entry dated_card AuthenticationKey (Some sample_dates)
              x60 x01 x02 x03) as (Hrun & _);
    [split; discriminate | reflexivity | discriminate | reflexivity |].
  exact Hrun.
Defined.

Lemma range_accessor_agrees_with_byte_accessor_witness :
  exists r,
    getBytesWith1BasedIndexing (Some [x0a; x0b; x0c]) 2 3 = Returns (Some r, None)
    /\ Z.of_nat (length r) = 2.
Proof.
  destruct (range_accessor_agrees_with_byte_accessor [x0a; x0b; x0c] 2 3)
    as (r & Hrun & Hlen & _);
    [reflexivity | discriminate | discriminate | discriminate | discriminate |].
  exists r. split; [exact Hrun | exact Hlen].
Defined.

Lemma isSupported_all_mask_bits_witness :
  Z.testbit (u8 xa1) 5 = true.
Proof.
  assert (Hsup : isSupported xa1 Flag.KeyImport = true) by reflexivity.
  apply (proj1 (isSupported_all_mask_bits xa1 Flag.KeyImport) Hsup 5);
    [discriminate | reflexivity].
Defined.

Lemma setGetChallengeSupported_spec_witness :
  setGetChallengeSupported xc0 (Some [x01]) (Some sample_card)
  = Returns (Some (Sentinel ErrTooShort), Some sample_card)
  /\ setGetChallengeSupported x80 (Some [x01]) (Some sample_card)
     = Returns (None, Some sample_card).
Proof.
  split.
  - apply (setGetChallengeSupported_spec xc0 (Some [x01]) sample_card);
      [reflexivity | discriminate].
  - apply (setGetChallengeSupported_spec x80 (Some [x01]) sample_card). reflexivity.
Defined.

Lemma loadExtendedData_decodes_witness :
  exists g',
    loadExtendedData x03 x00 (Some sample_card) = Returns (None, Some g')
    /\ MaximumCardholderCertificatesLength g' = 2048
    /\ MaximumSpecialDOsLength g' = 255
    /\ MSECommandSupported g' = true.
Proof.
  destruct (loadExtendedData_decodes x03 x00 sample_card
              x80 x02 x00 x00 x08 x00 x00 xff x00 x01 [])
    as (g' & Hrun & _ & _ & _ & _ & _ & _ & _ & _ & _ & _ & Hcert & Hdo & _ & Hmse);
    [reflexivity | reflexivity | right; discriminate |].
  exists g'. split; [exact Hrun |]. split; [exact Hcert |]. split; [exact Hdo | exact Hmse].
Defined.

Lemma loadExtendedData_frame_witness :
  exists err g',
    loadExtendedData x03 x00 (Some sample_card) = Returns (err, Some g')
    /\ tlvValues g' = sample_tlv.
Proof.
  destruct (loadExtendedData_frame x03 x00 sample_card)
    as (err & g' & Hrun & _ & _ & _ & _ & _ & _ & _ & _ & _ & _ & _ & Htlv & _).
  { intros tag Htag. apply (sample_tlv_fits extendedCapabilitiesTag tag Htag). }
  exists err, g'. split; [exact Hrun | exact Htlv].
Defined.

Lemma loadExtendedData_idempotent_witness :
  exists err g',
    loadExtendedData x03 x00 (Some sample_card) = Returns (err, Some g')
    /\ loadExtendedData x03 x00 (Some g') = Returns (err, Some g').
Proof.
  apply (loadExtendedData_idempotent x03 x00 sample_card).
  intros tag Htag. apply (sample_tlv_fits extendedCapabilitiesTag tag Htag).
Defined.

Lemma loadExtendedData_only_refusal_witness :
  exists g',
    loadExtendedData x01 x00 (Some sample_card)
    = Returns (Some (Errorf "loadExtendedData(setSecureMessaging) failed: %w"
                       ErrNoSuchAlgorithm), Some g').
Proof.
  destruct (loadExtendedData_only_refusal x01 x00 sample_card
              (Some [x80; x02; x00; x00; x08; x00; x00; xff; x00; x01]))
    as (err & g' & Hrun & [Hnil | Herr] & _);
    [reflexivity | split; [discriminate | reflexivity] | |].
  - exfalso. rewrite Hnil in Hrun. vm_compute in Hrun. discriminate Hrun.
  - exists g'. rewrite <- Herr. exact Hrun.
Defined.

Lemma Fingerprints_tile_the_tag_witness :
  exists f0 f1 f2,
    Fingerprint SignatureKey (Some sample_card) = Returns ((f0, None), Some sample_card)
    /\ Fingerprint DecryptionKey (Some sample_card) = Returns ((f1, None), Some sample_card)
    /\ Fingerprint AuthenticationKey (Some sample_card)
       = Returns ((f2, None), Some sample_card)
    /\ f0 +:+ f1 +:+ f2 = UpperCaseHexString (Some (firstn 60 sample_fingerprints)).
Proof.
  apply (Fingerprints_tile_the_tag sample_card sample_fingerprints);
    [reflexivity | discriminate].
Defined.

Lemma Fingerprint_reads_a_fourth_entry_witness :
  Fingerprint AttestKey (Some four_slot_card)
  = Returns (("CCCCCCCCCCCCCCCCCCCCCCCCCCCCCCCCCCCCCCCC", None), Some four_slot_card).
Proof.
  apply (Fingerprint_reads_a_fourth_entry four_slot_card
           (sample_fingerprints ++ repeat xcc 20));
    [reflexivity | discriminate].
Defined.

Lemma packed_accessors_total_witness :
  exists t err,
    Date AttestKey (Some dated_card) = Returns ((t, err), Some dated_card)
    /\ (err <> None -> t = TimeZero).
Proof.
  destruct (packed_accessors_total dated_card AttestKey) as (_ & _ & t & err & Hrun & _ & Hzero);
    [split; discriminate |].
  exists t, err. split; [exact Hrun | exact Hzero].
Defined.

Lemma Origin_sound_witness :
  0 <= 2 <= 3.
Proof.
  assert (Hlast : 0 <= 3 < 2 ^ 64) by (split; [discriminate | reflexivity]).
  assert (Hrun : Origin 4 3 0 DecryptionKey (Some sample_card)
                 = Returns ((2, None), Some sample_card)) by reflexivity.
  destruct (Origin_sound 4 3 0 sample_card DecryptionKey 2 None (Some sample_card)
              Hlast Hrun) as (_ & _ & Hok).
  apply Hok. reflexivity.
Defined.

Lemma ParseCardHolderName_total_witness :
  ParseCardHolderName (Some (list_byte_of_string "DOE")) = Returns "DOE".
Proof.
  assert (Hfit : len (Some (list_byte_of_string "DOE")) <= Int.max)
    by (vm_compute; discriminate).
  destruct (ParseCardHolderName_total (Some (list_byte_of_string "DOE")) Hfit)
    as (r & Hrun & Hplain & _).
  rewrite Hrun. f_equal. apply Hplain; [reflexivity |].
  intros [| [| [| n]]]; discriminate.
Defined.

Lemma update_builds_identity_witness :
  exists err g',
    update x03 x00 (Some sample_card) = Returns (err, Some g')
    /\ SerialInt g' = 56906513
    /\ String.length (Serial g') = 7%nat.
Proof.
  destruct (update_builds_identity x03 x00 sample_card
              xd2 x76 x00 x01 x24 x01 x02 x01 x00 x06 x03 x64 x53 x11 [x00; x00])
    as (cardHolder & err & g' & Hrun & _ & _ & Hlen & Hint & _);
    [reflexivity | exact sample_tlv_fits |].
  exists err, g'. split; [exact Hrun |]. split; [exact Hint | exact Hlen].
Defined.

Lemma update_idempotent_witness :
  exists err g',
    update x03 x00 (Some sample_card) = Returns (err, Some g')
    /\ update x03 x00 (Some g') = Returns (err, Some g').
Proof.
  apply (update_idempotent x03 x00 sample_card
           xd2 x76 x00 x01 x24 x01 x02 x01 x00 x06 x03 x64 x53 x11 [x00; x00]);
    [reflexivity | exact sample_tlv_fits].
Defined.

Lemma update_without_identifier_witness :
  update x03 x00 (Some blank_card) = Returns (Some (Sentinel ErrNoSuchTag), Some blank_card).
Proof.
  destruct (update_without_identifier x03 x00 blank_card) as (e & Hrun & _ & Habsent).
  - intros (aid & Haid & _). discriminate Haid.
  - rewrite <- (Habsent eq_refl). exact Hrun.
Defined.

Lemma empty_range_edges_witness :
  getBytesWith1BasedIndexing (Some [x0a; x0b]) 1 0 = Returns (Some [], None)
  /\ getBytesWith1BasedIndexing (Some [x0a; x0b]) 3 2
     = Returns (None, Some (Sentinel ErrNotFound)).
Proof.
  assert (Hfit : len (Some [x0a; x0b]) < Int.max) by reflexivity.
  destruct (empty_range_edges [x0a; x0b] 1 Hfit) as (Hfront & Hback).
  split; [apply Hfront; split; discriminate | exact Hback].
Defined.
